(** * A ReAct agent loop (simple-agentic-ai-app-react/src/ai-agent.ts)

    Shallow embedding of the response parser, the tool registry, the
    built-in tools and the bounded reasoning loop of [ReactAgent], with the
    properties the specification states about them.

    Conventions.
    - A JavaScript string is the list of its UTF-16 code units ([jsstring]).
    - [undefined] in an optional field is [None].
    - An awaited call that may reject is a function on the outside world
      returning a [Completion]; the agent's own calls to the completion
      client and to a tool function are recorded in a trace of [Event]s.
    - Console output ([verbose]) is write-only and is not modelled. *)

From Stdlib Require Import List NArith ZArith Bool Ascii String Lia.
Import ListNotations.

Set Implicit Arguments.

(* ===================================================================== *)
(** ** JavaScript strings *)
(* ===================================================================== *)

Module JS.

Local Open Scope N_scope.

Definition char := N.
Definition jsstring := list char.

(** A string literal of the source, code unit by code unit. *)
Definition lit (s : string) : jsstring :=
  List.map N_of_ascii (list_ascii_of_string s).

Definition LF : char := 10.
Definition DQUOTE : char := 34.

(** ECMAScript LineTerminator: LF, CR, LS, PS. *)
Definition isLineTerminator (c : char) : bool :=
  (c =? 10) || (c =? 13) || (c =? 0x2028) || (c =? 0x2029).

(** ECMAScript WhiteSpace: TAB, VT, FF, SP, NBSP, ZWNBSP and category Zs. *)
Definition isWhiteSpace (c : char) : bool :=
  (c =? 9) || (c =? 11) || (c =? 12) || (c =? 32) || (c =? 160)
  || (c =? 0x1680) || ((0x2000 <=? c) && (c <=? 0x200A))
  || (c =? 0x202F) || (c =? 0x205F) || (c =? 0x3000) || (c =? 0xFEFF).

(** The characters removed by [String.prototype.trim] and matched by the
    regular-expression class [\s]: WhiteSpace and LineTerminator. *)
Definition isSpace (c : char) : bool := isWhiteSpace c || isLineTerminator c.

Fixpoint dropWhile (p : char -> bool) (s : jsstring) : jsstring :=
  match s with
  | [] => []
  | c :: s' => if p c then dropWhile p s' else s
  end.

Fixpoint takeWhile (p : char -> bool) (s : jsstring) : jsstring :=
  match s with
  | [] => []
  | c :: s' => if p c then c :: takeWhile p s' else []
  end.

Definition trimStart (s : jsstring) : jsstring := dropWhile isSpace s.
Definition trimEnd (s : jsstring) : jsstring := rev (dropWhile isSpace (rev s)).

(** [s.trim()] *)
Definition trim (s : jsstring) : jsstring := trimEnd (trimStart s).

(** [s.startsWith(p)] *)
Fixpoint startsWith (p s : jsstring) : bool :=
  match p, s with
  | [], _ => true
  | _ :: _, [] => false
  | a :: p', b :: s' => (a =? b) && startsWith p' s'
  end.

(** [s.includes(p)] *)
Fixpoint includes (p s : jsstring) : bool :=
  startsWith p s ||
  match s with
  | [] => false
  | _ :: s' => includes p s'
  end.

(** [s.substring(n)] for [n] within the string. *)
Definition substring (n : nat) (s : jsstring) : jsstring := skipn n s.

(** [s.split(sep)] for a separator of one code unit. *)
Fixpoint split (sep : char) (s : jsstring) : list jsstring :=
  match s with
  | [] => [[]]
  | c :: s' =>
      if c =? sep then [] :: split sep s'
      else match split sep s' with
           | l :: ls => (c :: l) :: ls
           | [] => [[c]]
           end
  end.

(** [parts.join(sep)] *)
Fixpoint join (sep : jsstring) (parts : list jsstring) : jsstring :=
  match parts with
  | [] => []
  | [p] => p
  | p :: ps => p ++ sep ++ join sep ps
  end.

(** [a === b] on strings *)
Fixpoint eqb (a b : jsstring) : bool :=
  match a, b with
  | [], [] => true
  | x :: a', y :: b' => (x =? y) && eqb a' b'
  | _, _ => false
  end.

(** Truthiness of a string: only the empty string is falsy. *)
Definition truthy (s : jsstring) : bool :=
  match s with [] => false | _ :: _ => true end.

End JS.

Import JS.

(* ===================================================================== *)
(** ** Completions, effects and the event trace *)
(* ===================================================================== *)

(** A thrown value that a template literal can convert to a string: an
    [Error] object or a string primitive.  These are the values thrown by
    the calls the program itself makes ([fetch], [response.json()],
    [new Error], a string conversion that fails).  A tool function is
    foreign code and may throw any value: see [ToolThrown]. *)
Inductive JsThrown :=
| ErrorObject (name message : jsstring)
| ThrownString (s : jsstring).

(** The conversion a template literal applies to a caught value
    ([Error.prototype.toString] for error objects). *)
Definition thrownToString (e : JsThrown) : jsstring :=
  match e with
  | ErrorObject n m =>
      if truthy n then (if truthy m then n ++ lit ": " ++ m else n) else m
  | ThrownString s => s
  end.

Inductive Completion (A : Type) :=
| Normal (a : A)
| Throw (e : JsThrown).
Arguments Normal {A} a.
Arguments Throw {A} e.

(** [try { body } catch (error) { handler }] on pure completions. *)
Definition tryCatchC {A} (body : Completion A) (handler : JsThrown -> Completion A)
  : Completion A :=
  match body with
  | Normal a => Normal a
  | Throw e => handler e
  end.

(** An awaited call into the outside world [W] (the completion service, a
    tool that reads the clock): it may change the world and may reject. *)
Definition Eff (W A : Type) := W -> W * Completion A.

Definition pureEff {W A} (c : Completion A) : Eff W A := fun w => (w, c).

(** A value thrown by a tool function.  [Convertible e] is a value that
    can be converted to a string.  [Unconvertible raised] is a value
    whose conversion to a string throws [raised]: the [TypeError] of the
    engine for a Symbol and for an object without a usable [toString] or
    [valueOf], and what its [toString] throws for an object whose
    [toString] throws. *)
Inductive ToolThrown :=
| Convertible (e : JsThrown)
| Unconvertible (raised : JsThrown).

(** The conversion [${error}] of a template literal. *)
Definition toolThrownToString (v : ToolThrown) : Completion jsstring :=
  match v with
  | Convertible e => Normal (thrownToString e)
  | Unconvertible raised => Throw raised
  end.

Inductive ToolCompletion :=
| Returned (result : jsstring)
| Thrown (v : ToolThrown).

(** An awaited call of a tool function. *)
Definition ToolEff (W : Type) := W -> W * ToolCompletion.

(** A call of the program's own seen as the call of a tool. *)
Definition ofEff {W} (call : Eff W jsstring) : ToolEff W :=
  fun w =>
    match call w with
    | (w', Normal result) => (w', Returned result)
    | (w', Throw e) => (w', Thrown (Convertible e))
    end.

(** [interface Tool] *)
Record Tool (W : Type) := mkTool {
  name : jsstring;
  description : jsstring;
  func : jsstring -> ToolEff W
}.
Arguments mkTool {W} name description func.

(** [class OllamaClient]: [generate] is one HTTP exchange with the
    completion service, which lives in the outside world. *)
Record OllamaClient (W : Type) := mkClient {
  generate : jsstring -> Eff W jsstring
}.
Arguments mkClient {W} generate.

(** What the agent is observed to do: each call of [llm.generate] and each
    call of a tool's [func], in order. *)
Inductive Event :=
| EvGenerate (prompt : jsstring)
| EvTool (toolName input : jsstring).

Record Machine (W : Type) := mkMachine {
  world : W;
  trace : list Event
}.
Arguments mkMachine {W} world trace.

(** Computations of the agent: state (world and trace) survives a throw. *)
Definition Run (W A : Type) := Machine W -> Machine W * Completion A.

Definition ret {W A} (a : A) : Run W A := fun m => (m, Normal a).

Definition bind {W A B} (c : Run W A) (k : A -> Run W B) : Run W B :=
  fun m =>
    match c m with
    | (m', Normal a) => k a m'
    | (m', Throw e) => (m', Throw e)
    end.

(** [await call], recorded as event [ev]. *)
Definition await {W A} (ev : Event) (call : Eff W A) : Run W A :=
  fun m =>
    let (w', r) := call (world m) in
    (mkMachine w' (trace m ++ [ev]), r).

(** A completion reached without touching the world. *)
Definition liftC {W A} (c : Completion A) : Run W A := fun m => (m, c).

(** [try { return await call } catch (error) { handler }] around the call
    of a tool function, recorded as event [ev]. *)
Definition tryAwaitTool {W} (ev : Event) (call : ToolEff W)
    (handler : ToolThrown -> Run W jsstring) : Run W jsstring :=
  fun m =>
    match call (world m) with
    | (w', Returned result) => (mkMachine w' (trace m ++ [ev]), Normal result)
    | (w', Thrown error) => handler error (mkMachine w' (trace m ++ [ev]))
    end.

Declare Scope run_scope.
Delimit Scope run_scope with run.
Notation "x <- c ;; k" := (bind c (fun x => k))
  (at level 61, c at next level, right associativity) : run_scope.

Definition isGenerate (e : Event) : bool :=
  match e with EvGenerate _ => true | EvTool _ _ => false end.
Definition isTool (e : Event) : bool :=
  match e with EvGenerate _ => false | EvTool _ _ => true end.

(** Number of completion-client calls, and the tool calls, of a trace. *)
Definition generateCalls (t : list Event) : nat := List.length (filter isGenerate t).
Definition toolCalls (t : list Event) : list Event := filter isTool t.

(* ===================================================================== *)
(** ** Tool implementations *)
(* ===================================================================== *)

(** [getCurrentTime]: [new Date().toLocaleString()], read from the world's
    clock [localeNow]. *)
Definition getCurrentTime {W} (localeNow : W -> jsstring) : Eff W jsstring :=
  fun w => (w, Normal (localeNow w)).

(** [new Set("0123456789+-*/.() ")] *)
Definition allowedChars : jsstring := lit "0123456789+-*/.() ".

Definition has (set : jsstring) (c : char) : bool :=
  existsb (fun a => N.eqb a c) set.

(** The source text handed to the [Function] constructor. *)
Definition functionBody (cleanExpression : jsstring) : jsstring :=
  [DQUOTE] ++ lit "use strict" ++ [DQUOTE] ++ lit "; return ("
  ++ cleanExpression ++ lit ")".

(** [simpleCalculator].  [engine body] stands for
    [String(Function(body)())]: the rendering of the value the JavaScript
    engine computes for the function body, or what compiling, calling or
    rendering throws. *)
Definition simpleCalculator (engine : jsstring -> Completion jsstring)
    (expression : jsstring) : Completion jsstring :=
  tryCatchC
    (let cleanExpression := trim expression in
     if forallb (has allowedChars) cleanExpression
     then engine (functionBody cleanExpression)
     else Normal (lit "Error: Invalid characters in expression"))
    (fun _ => Normal (lit "Error: Could not evaluate expression")).

(** [getWeatherInfo(city = "New York")]: the default applies when the
    argument is absent or [undefined] ([None]).  The degree sign of the
    source file reads as the two code units U+00AC U+221E. *)
Definition getWeatherInfo (city : option jsstring) : Completion jsstring :=
  let city := match city with Some c => c | None => lit "New York" end in
  Normal (lit "The weather in " ++ city ++ lit " is sunny and 72"
          ++ [172; 8734]%N ++ lit "F (this is mock data)").

(** [const tools: Tool[]]; every [func] is called with one string. *)
Definition tools {W} (localeNow : W -> jsstring)
    (engine : jsstring -> Completion jsstring) : list (Tool W) :=
  [ mkTool (lit "get_time") (lit "Get the current date and time")
      (fun _ => ofEff (getCurrentTime localeNow));
    mkTool (lit "calculator")
      (lit "Calculate simple math expressions like '2 + 2' or '10 * 5'")
      (fun input => ofEff (pureEff (simpleCalculator engine input)));
    mkTool (lit "weather") (lit "Get weather information for a city")
      (fun input => ofEff (pureEff (getWeatherInfo (Some input)))) ].

(* ===================================================================== *)
(** ** The engine on integer arithmetic *)
(* ===================================================================== *)

(** What ECMAScript prescribes for [String(Function(body)())] when [body]
    is ["use strict"; return <e>] and [<e>] is written with decimal integer
    literals, [+ - * /], parentheses and spaces, as far as Number
    arithmetic is exact (integers up to 2^53 in magnitude, signed zero,
    the infinities and NaN).  Anything else (a decimal point, [**], [++],
    a comment, a regular-expression literal, an inexact quotient, a larger
    magnitude) is outside this fragment: [evalBody] answers [None]. *)
Module Arith.

Local Open Scope N_scope.

Inductive Number :=
| NaN
| Infinity (negative : bool)
| Int (negative : bool) (magnitude : N).

Definition MAX_EXACT : N := 2 ^ 53.

(** A finite result, kept only when it is exactly representable. *)
Definition finite (negative : bool) (magnitude : N) : option Number :=
  if magnitude <=? MAX_EXACT then Some (Int negative magnitude) else None.

Definition toZ (negative : bool) (magnitude : N) : Z :=
  if negative then Z.opp (Z.of_N magnitude) else Z.of_N magnitude.

Definition negate (x : Number) : Number :=
  match x with
  | NaN => NaN
  | Infinity s => Infinity (negb s)
  | Int s m => Int (negb s) m
  end.

(** [x + y]: a zero sum is [-0] only when both operands are [-0]. *)
Definition add (x y : Number) : option Number :=
  match x, y with
  | NaN, _ | _, NaN => Some NaN
  | Infinity s, Infinity s' => Some (if Bool.eqb s s' then Infinity s else NaN)
  | Infinity s, Int _ _ | Int _ _, Infinity s => Some (Infinity s)
  | Int s m, Int s' m' =>
      let z := (toZ s m + toZ s' m')%Z in
      if (z =? 0)%Z then Some (Int ((m =? 0) && (m' =? 0) && s && s') 0)
      else finite (z <? 0)%Z (Z.abs_N z)
  end.

Definition sub (x y : Number) : option Number := add x (negate y).

Definition mul (x y : Number) : option Number :=
  match x, y with
  | NaN, _ | _, NaN => Some NaN
  | Infinity s, Infinity s' => Some (Infinity (xorb s s'))
  | Infinity s, Int s' m | Int s' m, Infinity s =>
      Some (if m =? 0 then NaN else Infinity (xorb s s'))
  | Int s m, Int s' m' => finite (xorb s s') (m * m')
  end.

(** [x / y]: division by a zero gives an infinity or NaN. *)
Definition div (x y : Number) : option Number :=
  match x, y with
  | NaN, _ | _, NaN => Some NaN
  | Infinity _, Infinity _ => Some NaN
  | Infinity s, Int s' _ => Some (Infinity (xorb s s'))
  | Int s _, Infinity s' => Some (Int (xorb s s') 0)
  | Int s m, Int s' m' =>
      if m' =? 0 then Some (if m =? 0 then NaN else Infinity (xorb s s'))
      else if m mod m' =? 0 then Some (Int (xorb s s') (m / m'))
      else None
  end.

Fixpoint decimalDigits (fuel : nat) (n : N) (acc : jsstring) : jsstring :=
  match fuel with
  | O => acc
  | S fuel' =>
      let acc' := (48 + n mod 10) :: acc in
      if n / 10 =? 0 then acc' else decimalDigits fuel' (n / 10) acc'
  end.

Definition decimal (n : N) : jsstring :=
  decimalDigits (S (N.to_nat (N.log2 n))) n [].

(** [Number::toString] on this fragment (below 10^21, no exponent). *)
Definition numberToString (x : Number) : jsstring :=
  match x with
  | NaN => lit "NaN"
  | Infinity s => if s then lit "-Infinity" else lit "Infinity"
  | Int s m =>
      if m =? 0 then lit "0"
      else if s then lit "-" ++ decimal m else decimal m
  end.

Inductive token :=
| NUM (n : N)
| PLUS | MINUS | STAR | SLASH | LPAREN | RPAREN.

Definition isDigit (c : char) : bool := (48 <=? c) && (c <=? 57).

Definition cons_token (tk : token) (r : option (list token)) : option (list token) :=
  option_map (cons tk) r.

(** Close a pending literal [num] before the tokens [r]. *)
Definition flush (num : option N) (r : option (list token)) : option (list token) :=
  match num with
  | None => r
  | Some n => if n <=? MAX_EXACT then cons_token (NUM n) r else None
  end.

Definition next_is (c : char) (s : jsstring) : bool :=
  match s with
  | d :: _ => d =? c
  | [] => false
  end.

(** The tokens of [s].  [num] is the integer literal being read;
    [operand] tells whether the previous token ends an operand, which is
    where [/] divides (elsewhere it opens a regular-expression literal). *)
Fixpoint lex (s : jsstring) (num : option N) (operand : bool) : option (list token) :=
  match s with
  | [] => flush num (Some [])
  | c :: s' =>
      if isDigit c then
        match num with
        | None => lex s' (Some (c - 48)) true
        | Some n => if n =? 0 then None else lex s' (Some (10 * n + (c - 48))) true
        end
      else if c =? 32 then flush num (lex s' None operand)
      else if c =? 43 then
        if next_is 43 s' then None else flush num (cons_token PLUS (lex s' None false))
      else if c =? 45 then
        if next_is 45 s' then None else flush num (cons_token MINUS (lex s' None false))
      else if c =? 42 then
        if next_is 42 s' then None else flush num (cons_token STAR (lex s' None false))
      else if c =? 47 then
        if next_is 47 s' || next_is 42 s' || negb operand then None
        else flush num (cons_token SLASH (lex s' None false))
      else if c =? 40 then flush num (cons_token LPAREN (lex s' None false))
      else if c =? 41 then flush num (cons_token RPAREN (lex s' None true))
      else None
  end.

Inductive binop := Add | Sub | Mul | Div.

Inductive expr :=
| ENum (n : N)
| EPos (e : expr)
| ENeg (e : expr)
| EBin (op : binop) (l r : expr)
| ECall0 (callee : expr)
| ECall1 (callee argument : expr).

Inductive parsed (A : Type) :=
| OutOfFuel
| SyntaxError
| Parsed (a : A).
Arguments OutOfFuel {A}.
Arguments SyntaxError {A}.
Arguments Parsed {A} a.

(** Recursive descent along the grammar
    Additive ::= Multiplicative { PLUS-or-MINUS Multiplicative },
    Multiplicative ::= Unary { STAR-or-SLASH Unary },
    Unary ::= PLUS-or-MINUS Unary | Call,
    Call ::= Primary { Arguments },
    Arguments ::= LPAREN RPAREN | LPAREN Additive RPAREN,
    Primary ::= NUM | LPAREN Additive RPAREN. *)
Fixpoint parseAdditive (fuel : nat) (ts : list token) : parsed (expr * list token) :=
  match fuel with
  | O => OutOfFuel
  | S fuel' =>
      match parseMultiplicative fuel' ts with
      | Parsed (l, ts') => parseAdditiveRest fuel' l ts'
      | other => other
      end
  end
with parseAdditiveRest (fuel : nat) (l : expr) (ts : list token) : parsed (expr * list token) :=
  match fuel with
  | O => OutOfFuel
  | S fuel' =>
      match ts with
      | PLUS :: ts' =>
          match parseMultiplicative fuel' ts' with
          | Parsed (r, ts'') => parseAdditiveRest fuel' (EBin Add l r) ts''
          | other => other
          end
      | MINUS :: ts' =>
          match parseMultiplicative fuel' ts' with
          | Parsed (r, ts'') => parseAdditiveRest fuel' (EBin Sub l r) ts''
          | other => other
          end
      | _ => Parsed (l, ts)
      end
  end
with parseMultiplicative (fuel : nat) (ts : list token) : parsed (expr * list token) :=
  match fuel with
  | O => OutOfFuel
  | S fuel' =>
      match parseUnary fuel' ts with
      | Parsed (l, ts') => parseMultiplicativeRest fuel' l ts'
      | other => other
      end
  end
with parseMultiplicativeRest (fuel : nat) (l : expr) (ts : list token) : parsed (expr * list token) :=
  match fuel with
  | O => OutOfFuel
  | S fuel' =>
      match ts with
      | STAR :: ts' =>
          match parseUnary fuel' ts' with
          | Parsed (r, ts'') => parseMultiplicativeRest fuel' (EBin Mul l r) ts''
          | other => other
          end
      | SLASH :: ts' =>
          match parseUnary fuel' ts' with
          | Parsed (r, ts'') => parseMultiplicativeRest fuel' (EBin Div l r) ts''
          | other => other
          end
      | _ => Parsed (l, ts)
      end
  end
with parseUnary (fuel : nat) (ts : list token) : parsed (expr * list token) :=
  match fuel with
  | O => OutOfFuel
  | S fuel' =>
      match ts with
      | PLUS :: ts' =>
          match parseUnary fuel' ts' with
          | Parsed (e, ts'') => Parsed (EPos e, ts'')
          | other => other
          end
      | MINUS :: ts' =>
          match parseUnary fuel' ts' with
          | Parsed (e, ts'') => Parsed (ENeg e, ts'')
          | other => other
          end
      | NUM n :: ts' => parseArguments fuel' (ENum n) ts'
      | LPAREN :: ts' =>
          match parseAdditive fuel' ts' with
          | Parsed (e, RPAREN :: ts'') => parseArguments fuel' e ts''
          | Parsed _ => SyntaxError
          | other => other
          end
      | _ => SyntaxError
      end
  end
with parseArguments (fuel : nat) (callee : expr) (ts : list token) : parsed (expr * list token) :=
  match fuel with
  | O => OutOfFuel
  | S fuel' =>
      match ts with
      | LPAREN :: RPAREN :: ts' => parseArguments fuel' (ECall0 callee) ts'
      | LPAREN :: ts' =>
          match parseAdditive fuel' ts' with
          | Parsed (a, RPAREN :: ts'') => parseArguments fuel' (ECall1 callee a) ts''
          | Parsed _ => SyntaxError
          | other => other
          end
      | _ => Parsed (callee, ts)
      end
  end.

(** [return <Expression>] up to the end of the function body. *)
Definition parseReturn (ts : list token) : parsed expr :=
  match parseAdditive (4 * List.length ts + 8) ts with
  | Parsed (e, []) => Parsed e
  | Parsed (_, _ :: _) => SyntaxError
  | OutOfFuel => OutOfFuel
  | SyntaxError => SyntaxError
  end.

(** A call applies a number, which is not callable: a [TypeError]. *)
Fixpoint hasCall (e : expr) : bool :=
  match e with
  | ENum _ => false
  | EPos e | ENeg e => hasCall e
  | EBin _ l r => hasCall l || hasCall r
  | ECall0 _ | ECall1 _ _ => true
  end.

Fixpoint evalNumber (e : expr) : option Number :=
  match e with
  | ENum n => Some (Int false n)
  | EPos e => evalNumber e
  | ENeg e => option_map negate (evalNumber e)
  | EBin op l r =>
      match evalNumber l, evalNumber r with
      | Some x, Some y =>
          match op with
          | Add => add x y
          | Sub => sub x y
          | Mul => mul x y
          | Div => div x y
          end
      | _, _ => None
      end
  | ECall0 _ | ECall1 _ _ => None
  end.

Inductive outcome :=
| Value (rendering : jsstring)
| Throws (errorName : jsstring).

Definition RETURN_PREFIX : jsstring :=
  [DQUOTE] ++ lit "use strict" ++ [DQUOTE] ++ lit "; return ".

Fixpoint stripPrefix (p s : jsstring) : option jsstring :=
  match p, s with
  | [], _ => Some s
  | _ :: _, [] => None
  | a :: p', b :: s' => if a =? b then stripPrefix p' s' else None
  end.

Definition evalBody (body : jsstring) : option outcome :=
  match stripPrefix RETURN_PREFIX body with
  | None => None
  | Some src =>
      match lex src None false with
      | None => None
      | Some ts =>
          match parseReturn ts with
          | OutOfFuel => None
          | SyntaxError => Some (Throws (lit "SyntaxError"))
          | Parsed e =>
              if hasCall e then Some (Throws (lit "TypeError"))
              else option_map (fun x => Value (numberToString x)) (evalNumber e)
          end
      end
  end.

End Arith.

(** An engine agrees with the arithmetic fragment wherever it is defined. *)
Definition EngineConforms (engine : jsstring -> Completion jsstring) : Prop :=
  forall body,
    match Arith.evalBody body with
    | Some (Arith.Value s) => engine body = Normal s
    | Some (Arith.Throws _) => exists e, engine body = Throw e
    | None => True
    end.

(** The fragment as an engine; outside the fragment its answer is a
    placeholder that no statement below relies on. *)
Definition referenceEngine (body : jsstring) : Completion jsstring :=
  match Arith.evalBody body with
  | Some (Arith.Value s) => Normal s
  | Some (Arith.Throws n) => Throw (ErrorObject n (lit ""))
  | None => Throw (ErrorObject (lit "Error") (lit "outside the arithmetic fragment"))
  end.

(* ===================================================================== *)
(** ** The agent *)
(* ===================================================================== *)

(** [interface AgentStep] *)
Record AgentStep := mkStep {
  thought : jsstring;
  action : option jsstring;
  actionInput : option jsstring;
  observation : option jsstring
}.

Definition THOUGHT := lit "Thought:".
Definition ACTION := lit "Action:".
Definition ACTION_INPUT := lit "Action Input:".
Definition FINAL_ANSWER := lit "Final Answer:".

(** *** The pattern [/Final Answer:\s*(.+)/] *)

(** [(.+)] closes the pattern: greedy, it takes the longest run of
    characters that are not line terminators, and needs at least one. *)
Definition dotPlus (s : jsstring) : option jsstring :=
  match takeWhile (fun c => negb (isLineTerminator c)) s with
  | [] => None
  | cap => Some cap
  end.

(** [\s*(.+)]: the star is greedy and gives characters back one at a time
    when the rest of the pattern fails. *)
Fixpoint spacesThenDotPlus (s : jsstring) : option jsstring :=
  match s with
  | [] => dotPlus []
  | c :: s' =>
      if isSpace c then
        match spacesThenDotPlus s' with
        | Some cap => Some cap
        | None => dotPlus s
        end
      else dotPlus s
  end.

Definition matchAt (s : jsstring) : option jsstring :=
  if startsWith FINAL_ANSWER s then spacesThenDotPlus (substring 13 s)
  else None.

(** [response.match(/Final Answer:\s*(.+)/)]: start positions are tried
    from the left; the result is capture group 1 of the first match. *)
Fixpoint finalAnswerMatch (s : jsstring) : option jsstring :=
  match matchAt s with
  | Some cap => Some cap
  | None =>
      match s with
      | [] => None
      | _ :: s' => finalAnswerMatch s'
      end
  end.

Module ReactAgent.

(** [class ReactAgent] *)
Record t (W : Type) := mk {
  llm : OllamaClient W;
  tools : list (Tool W);
  maxIterations : nat;
  verbose : bool
}.
Arguments mk {W} llm tools maxIterations verbose.

Section Methods.
Context {W : Type}.
Variable self : t W.

Definition createPrompt (input scratchpad : jsstring) : jsstring :=
  let toolDescriptions :=
    join [LF] (List.map (fun tool => name tool ++ lit ": " ++ description tool)
                        (tools self)) in
  let toolNames := join (lit ", ") (List.map (@name W) (tools self)) in
  join [LF]
    [ lit "You are a helpful assistant with access to tools.";
      lit "";
      lit "You have access to the following tools:";
      toolDescriptions;
      lit "";
      lit "Use the following format:";
      lit "Question: the input question you must answer";
      lit "Thought: think about what you need to do";
      lit "Action: the action to take, should be one of [" ++ toolNames ++ lit "]";
      lit "Action Input: the input to the action";
      lit "Observation: the result of the action";
      lit "... (this Thought/Action/Action Input/Observation can repeat N times)";
      lit "Thought: I now know the final answer";
      lit "Final Answer: the final answer to the original input question";
      lit "";
      lit "Begin!";
      lit "";
      lit "Question: " ++ input;
      lit "Thought: " ++ scratchpad ].

(** The [for (const line of lines)] loop of [parseAgentResponse]; the
    [Final Answer:] branch ends the scan ([break]). *)
Fixpoint scanLines (lines : list jsstring) (step : AgentStep) : AgentStep :=
  match lines with
  | [] => step
  | line :: rest =>
      if startsWith THOUGHT line then
        scanLines rest
          (mkStep (trim (substring 8 line)) (action step) (actionInput step)
                  (observation step))
      else if startsWith ACTION line then
        scanLines rest
          (mkStep (thought step) (Some (trim (substring 7 line)))
                  (actionInput step) (observation step))
      else if startsWith ACTION_INPUT line then
        scanLines rest
          (mkStep (thought step) (action step)
                  (Some (trim (substring 13 line))) (observation step))
      else if startsWith FINAL_ANSWER line then
        mkStep (thought step) (action step) (actionInput step)
               (Some (trim (substring 13 line)))
      else scanLines rest step
  end.

(** [response.split("\n").map(line => line.trim()).filter(line => line)] *)
Definition responseLines (response : jsstring) : list jsstring :=
  filter truthy (List.map trim (split LF response)).

Definition emptyStep : AgentStep := mkStep [] None None None.

Definition parseAgentResponse (response : jsstring) : AgentStep :=
  scanLines (responseLines response) emptyStep.

Local Open Scope run_scope.

Definition executeTool (toolName input : jsstring) : Run W jsstring :=
  match find (fun t => JS.eqb (name t) toolName) (tools self) with
  | None =>
      ret (lit "Error: Tool '" ++ toolName ++ lit "' not found. Available tools: "
           ++ join (lit ", ") (List.map (@name W) (tools self)))
  | Some tool =>
      tryAwaitTool (EvTool toolName input) (func tool input)
        (fun error =>
           rendered <- liftC (toolThrownToString error) ;;
           ret (lit "Error executing tool '" ++ toolName ++ lit "': "
                ++ rendered))
  end.

(** How one pass through the body of the [for] loop ends: with [break]
    and the final answer, or at the end of the body with the scratchpad. *)
Inductive Pass :=
| Break (finalAnswer : jsstring)
| Next (scratchpad : jsstring).

(** The steps after the final-answer check: parse, then dispatch a tool
    or keep only the thought. *)
Definition act (response scratchpad : jsstring) : Run W Pass :=
  let step := parseAgentResponse response in
  match action step, actionInput step with
  | Some a, Some i =>
      if truthy a then
        observation <- executeTool a i ;;
        ret (Next (scratchpad
                   ++ ((if truthy (thought step) then lit "I" else lit "I")
                       ++ lit " need to use the " ++ a ++ lit " tool." ++ [LF])
                   ++ (lit "Action: " ++ a ++ [LF])
                   ++ (lit "Action Input: " ++ i ++ [LF])
                   ++ (lit "Observation: " ++ observation ++ [LF])
                   ++ lit "Thought: "))
      else ret (Next (scratchpad ++ thought step ++ [LF]))
  | _, _ => ret (Next (scratchpad ++ thought step ++ [LF]))
  end.

(** The body of the [for] loop of [invoke]. *)
Definition pass (input scratchpad : jsstring) : Run W Pass :=
  let prompt := createPrompt input scratchpad in
  response <- await (EvGenerate prompt) (generate (llm self) prompt) ;;
  if includes FINAL_ANSWER response then
    match finalAnswerMatch response with
    | Some capture => ret (Break (trim capture))
    | None => act response scratchpad
    end
  else act response scratchpad.

(** [for (let iteration = 0; iteration < this.maxIterations; iteration++)],
    by the number of iterations left; the result is [finalAnswer] as the
    loop leaves it. *)
Fixpoint loop (remaining : nat) (input scratchpad : jsstring) : Run W jsstring :=
  match remaining with
  | O => ret (lit "")
  | S remaining' =>
      p <- pass input scratchpad ;;
      match p with
      | Break finalAnswer => ret finalAnswer
      | Next scratchpad' => loop remaining' input scratchpad'
      end
  end.

Definition EXHAUSTED : jsstring :=
  lit "I couldn't complete the task within the maximum iterations.".

(** [invoke]; the result is the [output] field. *)
Definition invoke (input : jsstring) : Run W jsstring :=
  finalAnswer <- loop (maxIterations self) input (lit "") ;;
  if truthy finalAnswer then ret finalAnswer else ret EXHAUSTED.

End Methods.

(** Running a turn from a world with an empty trace. *)
Definition runInvoke {W} (self : t W) (input : jsstring) (w : W)
  : Machine W * Completion jsstring :=
  invoke self input (mkMachine w []).

End ReactAgent.

(* ===================================================================== *)
(** ** Statements of the specification, and test doubles *)
(* ===================================================================== *)

(** The lines the parser scans: those before the first line that begins
    with [Final Answer:]. *)
Fixpoint beforeFinalAnswer (lines : list jsstring) : list jsstring :=
  match lines with
  | [] => []
  | l :: rest =>
      if startsWith FINAL_ANSWER l then [] else l :: beforeFinalAnswer rest
  end.

(** The value carried by the last of [lines] that begins with [prefix]. *)
Definition lastValue (prefix : jsstring) (lines : list jsstring) : option jsstring :=
  match rev (filter (startsWith prefix) lines) with
  | [] => None
  | l :: _ => Some (trim (substring (List.length prefix) l))
  end.

(** The final answer as the loop extracts it from the whole text. *)
Definition loopFinalAnswer (response : jsstring) : option jsstring :=
  if includes FINAL_ANSWER response
  then option_map trim (finalAnswerMatch response)
  else None.

(** The final answer as the parser extracts it line by line. *)
Definition parserFinalAnswer (response : jsstring) : option jsstring :=
  observation (ReactAgent.parseAgentResponse response).

(** A response with no final-answer marker and no line beginning with a
    recognized prefix. *)
Definition plain (response : jsstring) : bool :=
  negb (includes FINAL_ANSWER response)
  && forallb (fun l => negb (startsWith THOUGHT l) && negb (startsWith ACTION l)
                       && negb (startsWith ACTION_INPUT l))
       (ReactAgent.responseLines response).

(** A completion client that answers every prompt with [r]. *)
Definition constClient (r : jsstring) : OllamaClient unit :=
  mkClient (fun _ w => (w, Normal r)).

(** A completion client that plays back a list of responses and fails
    with an HTTP error once the list is used up. *)
Definition scriptedClient : OllamaClient (list jsstring) :=
  mkClient (fun _ w =>
    match w with
    | r :: rest => (rest, Normal r)
    | [] => ([], Throw (ErrorObject (lit "Error") (lit "HTTP error! status: 500")))
    end).

(** A tool whose function always rejects. *)
Definition failingTool {W} : Tool W :=
  mkTool (lit "boom") (lit "Always fails")
    (fun _ w => (w, Thrown (Convertible (ErrorObject (lit "Error") (lit "kaput"))))).

(** The error of the engine when a Symbol is converted to a string. *)
Definition SYMBOL_ERROR : JsThrown :=
  ErrorObject (lit "TypeError") (lit "Cannot convert a Symbol value to a string").

(** A tool whose function always throws a Symbol. *)
Definition symbolTool {W} : Tool W :=
  mkTool (lit "sym") (lit "Throws a Symbol")
    (fun _ w => (w, Thrown (Unconvertible SYMBOL_ERROR))).

Definition demoClock {W} : W -> jsstring := fun _ => lit "1/1/2025, 12:00:00 PM".

(** The agent of [main] (three iterations) over a stub client. *)
Definition demoAgent (r : jsstring) : ReactAgent.t unit :=
  ReactAgent.mk (constClient r) (tools demoClock referenceEngine) 3 true.

Definition scriptedAgent : ReactAgent.t (list jsstring) :=
  ReactAgent.mk scriptedClient (tools demoClock referenceEngine) 3 true.

(** The block appended to the scratchpad after a tool call. *)
Definition dispatchBlock (a i observation : jsstring) : jsstring :=
  lit "I need to use the " ++ a ++ lit " tool." ++ [LF]
  ++ lit "Action: " ++ a ++ [LF]
  ++ lit "Action Input: " ++ i ++ [LF]
  ++ lit "Observation: " ++ observation ++ [LF]
  ++ lit "Thought: ".

(** An agent whose registry also holds the failing tool. *)
Definition faultyAgent : ReactAgent.t unit :=
  ReactAgent.mk (constClient (lit "")) (failingTool :: tools demoClock referenceEngine)
    3 true.

(** [Reaches self input n sp m n' sp' m']: the loop of [invoke], with [n]
    iterations left, scratchpad [sp] and machine [m], arrives after some
    passes that all end without [break] at [n'] iterations left,
    scratchpad [sp'] and machine [m']. *)
Inductive Reaches {W : Type} (self : ReactAgent.t W) (input : jsstring)
  : nat -> jsstring -> Machine W -> nat -> jsstring -> Machine W -> Prop :=
| reaches_here n sp m : Reaches self input n sp m n sp m
| reaches_next n sp m sp1 m1 n' sp' m' :
    ReactAgent.pass self input sp m = (m1, Normal (ReactAgent.Next sp1)) ->
    Reaches self input n sp1 m1 n' sp' m' ->
    Reaches self input (S n) sp m n' sp' m'.

(** An agent whose registry also holds the tool that throws a Symbol. *)
Definition symbolAgent (r : jsstring) : ReactAgent.t unit :=
  ReactAgent.mk (constClient r) (symbolTool :: tools demoClock referenceEngine) 3 true.

(** Two lines of text. *)
Definition lines2 (a b : jsstring) : jsstring := a ++ [LF] ++ b.

(* ===================================================================== *)
(** ** The HTTP client *)
(* ===================================================================== *)

Definition retE {W A} (a : A) : Eff W A := fun w => (w, Normal a).

Definition throwE {W A} (e : JsThrown) : Eff W A := fun w => (w, Throw e).

Definition bindE {W A B} (c : Eff W A) (k : A -> Eff W B) : Eff W B :=
  fun w =>
    match c w with
    | (w', Normal a) => k a w'
    | (w', Throw e) => (w', Throw e)
    end.

(** [try { body } catch (error) { handler }] on awaited calls. *)
Definition tryCatchE {W A} (body : Eff W A) (handler : JsThrown -> Eff W A)
  : Eff W A :=
  fun w =>
    match body w with
    | (w', Normal a) => (w', Normal a)
    | (w', Throw e) => handler e w'
    end.

(** [interface OllamaGenerateRequest]; [temperature] is
    [options.temperature], a number of type [Num]. *)
Module OllamaGenerateRequest.
Record t (Num : Type) := mk {
  model : jsstring;
  prompt : jsstring;
  stream : bool;
  temperature : Num
}.
End OllamaGenerateRequest.

(** [interface OllamaGenerateResponse] *)
Module OllamaGenerateResponse.
Record t := mk {
  response : jsstring;
  done : bool
}.
End OllamaGenerateResponse.

(** The call [fetch(url, {method, headers, body})] and the [Response] it
    resolves to.  The body, [JSON.stringify(requestBody)], is kept as the
    value it encodes; [json] is [response.json()] read as an
    [OllamaGenerateResponse]. *)
Module Http.
Record Request (Num : Type) := mkRequest {
  url : jsstring;
  method : jsstring;
  contentType : jsstring;
  body : OllamaGenerateRequest.t Num
}.
Record Response (W : Type) := mkResponse {
  ok : bool;
  status : N;
  json : Eff W OllamaGenerateResponse.t
}.
End Http.

Module Ollama.

(** The fields of [class OllamaClient]. *)
Record t (Num : Type) := mk {
  baseUrl : jsstring;
  model : jsstring;
  temperature : Num
}.

Section Generate.
Context {W Num : Type}.
Variable fetch : Http.Request Num -> Eff W (Http.Response W).

(** [OllamaClient.generate]: the handler of the [catch] reports the error
    on the error console and throws it again. *)
Definition generate (self : t Num) (prompt : jsstring) : Eff W jsstring :=
  let requestBody :=
    OllamaGenerateRequest.mk (model self) prompt false (temperature self) in
  tryCatchE
    (bindE
       (fetch (Http.mkRequest (baseUrl self ++ lit "/api/generate") (lit "POST")
                 (lit "application/json") requestBody))
       (fun response =>
          if negb (Http.ok response) then
            throwE (ErrorObject (lit "Error")
                      (lit "HTTP error! status: "
                       ++ Arith.decimal (Http.status response)))
          else
            bindE (Http.json response)
              (fun data => retE (OllamaGenerateResponse.response data))))
    (fun error => throwE error).

(** The object handed to [ReactAgent] as [llm]. *)
Definition client (self : t Num) : OllamaClient W := mkClient (generate self).

End Generate.

End Ollama.

(* ===================================================================== *)
(** ** The chat shell *)
(* ===================================================================== *)

(** What is written to the terminal: [console.log(text)] and the query of
    [rl.question(query, ...)].  The lines [invoke] logs when [verbose] are
    not part of it. *)
Inductive Output :=
| Log (text : jsstring)
| Question (query : jsstring).

Module AgentChat.

(** The state in which [start] leaves off: [closed] after [rl.close()],
    not [closed] while a question waits for a line that never comes. *)
Record Session (W : Type) := mkSession {
  machine : Machine W;
  stdout : list Output;
  closed : bool
}.
Arguments mkSession {W} machine stdout closed.

Definition READY : jsstring :=
  [63743; 252; 167; 241]%N ++ lit " Local Agent Ready! Type 'quit' to exit.".
Definition TRY : jsstring :=
  lit "Try: 'What time is it?' or 'Calculate 15 * 23' or 'What's the weather?'".
Definition YOU : jsstring := LF :: lit "You: ".
Definition GOODBYE : jsstring := [63743; 252; 235; 227]%N ++ lit " Goodbye!".
Definition AGENT : jsstring := LF :: [63743; 252; 167; 241]%N ++ lit " Agent: ".
Definition ERROR : jsstring := [8218; 249; 229]%N ++ lit " Error: ".

Section Shell.
Context {W : Type}.

(** [String.prototype.toLowerCase] of the engine. *)
Variable toLowerCase : jsstring -> jsstring.

(** The [ReactAgent] of the shell. *)
Variable agent : ReactAgent.t W.

(** The test of the [if] in [start]. *)
Definition isExit (userInput : jsstring) : bool :=
  JS.eqb (trim (toLowerCase userInput)) (lit "quit")
  || JS.eqb (trim (toLowerCase userInput)) (lit "exit")
  || JS.eqb (trim (toLowerCase userInput)) (lit "bye").

(** The [while (true)] loop of [start], by the lines the user will type. *)
Fixpoint loop (inputs : list jsstring) (m : Machine W) (out : list Output)
  : Session W :=
  match inputs with
  | [] => mkSession m (out ++ [Question YOU]) false
  | userInput :: rest =>
      if isExit userInput then
        mkSession m (out ++ [Question YOU; Log GOODBYE]) true
      else
        match ReactAgent.invoke agent userInput m with
        | (m', Normal output) =>
            loop rest m' (out ++ [Question YOU; Log (AGENT ++ output)])
        | (m', Throw error) =>
            loop rest m' (out ++ [Question YOU; Log (ERROR ++ thrownToString error)])
        end
  end.

(** [start], from the terminal contents [out]. *)
Definition start (inputs : list jsstring) (m : Machine W) (out : list Output)
  : Session W :=
  loop inputs m (out ++ [Log READY; Log TRY]).

End Shell.

End AgentChat.

(** The result of [main]: it returns before the shell starts, or the
    shell has run. *)
Inductive MainResult (W : Type) :=
| Unreachable (w : W) (out : list Output)
| Chatted (session : AgentChat.Session W).
Arguments Unreachable {W} w out.
Arguments Chatted {W} session.

Definition STARTING : jsstring :=
  [63743; 252; 246; 196]%N ++ lit " Starting Local Agentic AI..." ++ [LF].
Definition TESTING : jsstring :=
  [63743; 252; 238; 231]%N ++ lit " Testing Ollama connection...".
Definition CONNECTED : jsstring :=
  [8218; 250; 214]%N ++ lit " Ollama connection successful!" ++ [LF].
Definition NOT_CONNECTED : jsstring :=
  [8218; 249; 229]%N
  ++ lit " Could not connect to Ollama. Make sure it's running with 'ollama serve'".

(** [main]; [pointOne] is the number [0.1]. *)
Definition main {W Num : Type}
    (fetch : Http.Request Num -> Eff W (Http.Response W)) (pointOne : Num)
    (localeNow : W -> jsstring) (engine : jsstring -> Completion jsstring)
    (toLowerCase : jsstring -> jsstring)
    (inputs : list jsstring) (w : W) : MainResult W :=
  let llm := Ollama.mk (lit "http://localhost:11434") (lit "llama3.1:8b") pointOne in
  match Ollama.generate fetch llm (lit "Hello") w with
  | (w', Throw error) =>
      Unreachable w'
        [Log STARTING; Log TESTING; Log NOT_CONNECTED;
         Log (lit "Error: " ++ thrownToString error)]
  | (w', Normal _) =>
      let agent :=
        ReactAgent.mk (Ollama.client fetch llm) (tools localeNow engine) 3 true in
      Chatted (AgentChat.start toLowerCase agent inputs (mkMachine w' [])
                 [Log STARTING; Log TESTING; Log CONNECTED])
  end.

(** [toLowerCase] on strings of ASCII characters. *)
Definition asciiLower (s : jsstring) : jsstring :=
  List.map (fun c => if (N.leb 65 c && N.leb c 90)%bool then (c + 32)%N else c) s.

(** A network that plays back a list of replies: [None] is a failed
    connection, [Some (status, text)] a reply with that status whose body
    holds [text]. *)
Definition scriptedFetch {Num : Type} (_ : Http.Request Num)
  : Eff (list (option (N * jsstring))) (Http.Response (list (option (N * jsstring)))) :=
  fun w =>
    match w with
    | [] | None :: _ =>
        (tl w, Throw (ErrorObject (lit "TypeError") (lit "fetch failed")))
    | Some (status, text) :: rest =>
        (rest,
         Normal (Http.mkResponse
                   (N.leb 200 status && N.ltb status 300)%bool status
                   (retE (OllamaGenerateResponse.mk text true))))
    end.

Definition networkAgent : ReactAgent.t (list (option (N * jsstring))) :=
  ReactAgent.mk
    (Ollama.client scriptedFetch
       (Ollama.mk (lit "http://localhost:11434") (lit "llama3.1:8b") (lit "0.1")))
    (tools demoClock referenceEngine) 3 true.

(** An engine that differs from the reference engine only on function
    bodies that hold the letter [a]. *)
Definition pickyEngine (body : jsstring) : Completion jsstring :=
  if has body 97%N then Normal (lit "intruded") else referenceEngine body.

(** The line the shell logs at the end of a turn. *)
Definition turnReply (r : Completion jsstring) : jsstring :=
  match r with
  | Normal output => AgentChat.AGENT ++ output
  | Throw error => AgentChat.ERROR ++ thrownToString error
  end.

Definition isQuestion (o : Output) : bool :=
  match o with Question _ => true | Log _ => false end.

(** How many questions were put to the user, and how many lines were
    logged. *)
Definition questionsAsked (out : list Output) : nat :=
  List.length (filter isQuestion out).
Definition linesLogged (out : list Output) : nat :=
  List.length (filter (fun o => negb (isQuestion o)) out).

(* ===================================================================== *)
(** ** Properties of strings *)
(* ===================================================================== *)

Unset Implicit Arguments.

Section StringFacts.

Local Open Scope N_scope.

Lemma startsWith_iff (p s : jsstring) :
  startsWith p s = true <-> exists r, s = p ++ r.
Proof.
  revert s. induction p as [|a p IH]; intros s; simpl.
  - split; [intros _; now exists s | reflexivity].
  - destruct s as [|b s].
    + split; [discriminate | intros [r H]; discriminate].
    + rewrite andb_true_iff, N.eqb_eq, IH. split.
      * intros [-> [r ->]]. now exists r.
      * intros [r H]. injection H as -> ->. split; [reflexivity | now exists r].
Qed.

Lemma startsWith_app (p r : jsstring) : startsWith p (p ++ r) = true.
Proof. apply startsWith_iff. now exists r. Qed.

Lemma includes_iff (p s : jsstring) :
  includes p s = true <-> exists a b, s = a ++ p ++ b.
Proof.
  induction s as [|c s IH]; simpl.
  - rewrite orb_false_r, startsWith_iff. split.
    + intros [r H]. exists [], r. exact H.
    + intros [a [b H]]. destruct a; simpl in H.
      * now exists b.
      * discriminate.
  - rewrite orb_true_iff, startsWith_iff, IH. split.
    + intros [[r H] | [a [b H]]].
      * exists [], r. exact H.
      * exists (c :: a), b. simpl. now rewrite H.
    + intros [a [b H]]. destruct a as [|x a]; simpl in H.
      * left. now exists b.
      * right. injection H as _ H'. now exists a, b.
Qed.

Lemma eqb_iff (a b : jsstring) : JS.eqb a b = true <-> a = b.
Proof.
  revert b. induction a as [|x a IH]; intros [|y b]; simpl;
    try (split; [discriminate | intros H; discriminate]).
  - split; reflexivity.
  - rewrite andb_true_iff, N.eqb_eq, IH. split.
    + now intros [-> ->].
    + intros H. injection H as -> ->. now split.
Qed.

Lemma truthy_false (s : jsstring) : truthy s = false <-> s = [].
Proof. destruct s; simpl; split; congruence. Qed.

End StringFacts.

(* ===================================================================== *)
(** ** The parser keeps the last occurrence of a prefix *)
(* ===================================================================== *)

Ltac case_lastValue :=
  repeat match goal with
         | |- context [lastValue ?p ?l] => destruct (lastValue p l)
         end;
  reflexivity.

Section ParserFacts.

Import ReactAgent.

(** The four prefixes exclude one another. *)
Lemma prefixes_exclusive (line : jsstring) :
  (startsWith THOUGHT line = true ->
     startsWith ACTION line = false /\ startsWith ACTION_INPUT line = false
     /\ startsWith FINAL_ANSWER line = false)
  /\ (startsWith ACTION line = true ->
        startsWith ACTION_INPUT line = false /\ startsWith FINAL_ANSWER line = false)
  /\ (startsWith ACTION_INPUT line = true -> startsWith FINAL_ANSWER line = false).
Proof.
  split; [|split]; intros H; apply startsWith_iff in H; destruct H as [r ->];
    repeat split; reflexivity.
Qed.

Lemma lastValue_cons (p l : jsstring) (ls : list jsstring) :
  lastValue p (l :: ls) =
  match lastValue p ls with
  | Some v => Some v
  | None => if startsWith p l then Some (trim (substring (List.length p) l)) else None
  end.
Proof.
  unfold lastValue. simpl. destruct (startsWith p l); simpl.
  - destruct (rev (filter (startsWith p) ls)); reflexivity.
  - destruct (rev (filter (startsWith p) ls)); reflexivity.
Qed.

Lemma lastValue_nil (p : jsstring) : lastValue p [] = None.
Proof. reflexivity. Qed.

Lemma scanLines_last (lines : list jsstring) (step : AgentStep) :
  thought (scanLines lines step)
    = match lastValue THOUGHT (beforeFinalAnswer lines) with
      | Some v => v
      | None => thought step
      end
  /\ action (scanLines lines step)
    = match lastValue ACTION (beforeFinalAnswer lines) with
      | Some v => Some v
      | None => action step
      end
  /\ actionInput (scanLines lines step)
    = match lastValue ACTION_INPUT (beforeFinalAnswer lines) with
      | Some v => Some v
      | None => actionInput step
      end.
Proof.
  revert step. induction lines as [|l ls IH]; intros step.
  - repeat split.
  - cbn [scanLines beforeFinalAnswer].
    destruct (prefixes_exclusive l) as [HT [HA HI]].
    destruct (startsWith THOUGHT l) eqn:ET.
    + destruct (HT eq_refl) as [EA [EI EF]]. rewrite EF.
      rewrite !lastValue_cons, ET, EA, EI.
      destruct (IH (mkStep (trim (substring 8 l)) (action step)
                      (actionInput step) (observation step))) as [H1 [H2 H3]].
      rewrite H1, H2, H3. cbn [thought action actionInput].
      repeat split; case_lastValue.
    + destruct (startsWith ACTION l) eqn:EA.
      * destruct (HA eq_refl) as [EI EF]. rewrite EF.
        rewrite !lastValue_cons, ET, EA, EI.
        destruct (IH (mkStep (thought step) (Some (trim (substring 7 l)))
                        (actionInput step) (observation step))) as [H1 [H2 H3]].
        rewrite H1, H2, H3. cbn [thought action actionInput].
        repeat split; case_lastValue.
      * destruct (startsWith ACTION_INPUT l) eqn:EI.
        -- rewrite (HI eq_refl).
           rewrite !lastValue_cons, ET, EA, EI.
           destruct (IH (mkStep (thought step) (action step)
                           (Some (trim (substring 13 l))) (observation step)))
             as [H1 [H2 H3]].
           rewrite H1, H2, H3. cbn [thought action actionInput].
           repeat split; case_lastValue.
        -- destruct (startsWith FINAL_ANSWER l) eqn:EF.
           ++ rewrite !lastValue_nil. repeat split.
           ++ rewrite !lastValue_cons, ET, EA, EI.
              destruct (IH step) as [H1 [H2 H3]].
              rewrite H1, H2, H3.
              repeat split; case_lastValue.
Qed.

Lemma parseAgentResponse_last (response : jsstring) :
  thought (parseAgentResponse response)
  = match lastValue THOUGHT (beforeFinalAnswer (responseLines response)) with
    | Some v => v
    | None => []
    end
  /\ action (parseAgentResponse response)
     = lastValue ACTION (beforeFinalAnswer (responseLines response))
  /\ actionInput (parseAgentResponse response)
     = lastValue ACTION_INPUT (beforeFinalAnswer (responseLines response)).
Proof.
  destruct (scanLines_last (responseLines response) emptyStep) as [H1 [H2 H3]].
  unfold parseAgentResponse. rewrite H1, H2, H3.
  cbn [thought action actionInput emptyStep].
  repeat split; case_lastValue.
Qed.

End ParserFacts.

(** C3 (as amended): for every raw text, the thought, action and action
    input of the parsed step are the values of the LAST line beginning
    with [Thought:], [Action:] and [Action Input:] among the trimmed
    non-empty lines that precede the first [Final Answer:] line (an empty
    thought, an absent action or input when there is no such line): a
    later occurrence overwrites an earlier one. *)
Theorem parse_keeps_last_occurrence (response : jsstring) :
  let scanned := beforeFinalAnswer (ReactAgent.responseLines response) in
  let step := ReactAgent.parseAgentResponse response in
  thought step = match lastValue THOUGHT scanned with Some v => v | None => [] end
  /\ action step = lastValue ACTION scanned
  /\ actionInput step = lastValue ACTION_INPUT scanned.
Proof.
  intros scanned step. exact (parseAgentResponse_last response).
Qed.

(** C3 (counterexample): with two [Thought:] lines, two [Action:] lines
    and two [Action Input:] lines, the parsed step holds the values of the
    second line of each pair, not of the first. *)
Lemma parse_first_occurrence_overwritten :
  let response :=
    lines2 (lit "Thought: a")
      (lines2 (lit "Thought: b")
         (lines2 (lit "Action: x")
            (lines2 (lit "Action: y")
               (lines2 (lit "Action Input: 1") (lit "Action Input: 2"))))) in
  let step := ReactAgent.parseAgentResponse response in
  thought step = lit "b" /\ thought step <> lit "a"
  /\ action step = Some (lit "y") /\ action step <> Some (lit "x")
  /\ actionInput step = Some (lit "2") /\ actionInput step <> Some (lit "1").
Proof.
  vm_compute. repeat split; discriminate.
Qed.

(* ===================================================================== *)
(** ** Tool dispatch *)
(* ===================================================================== *)

Section DispatchFacts.

Context {W : Type}.
Variable self : ReactAgent.t W.

Import ReactAgent.

Lemma find_name_none (toolName : jsstring) (ts : list (Tool W)) :
  (forall t, In t ts -> name t <> toolName) ->
  find (fun t => JS.eqb (name t) toolName) ts = None.
Proof.
  induction ts as [|t ts IH]; intros H; simpl.
  - reflexivity.
  - destruct (JS.eqb (name t) toolName) eqn:E.
    + apply eqb_iff in E. exfalso. apply (H t); [now left | exact E].
    + apply IH. intros t' Ht'. apply H. now right.
Qed.

Lemma includes_middle (a p b : jsstring) : includes p (a ++ p ++ b) = true.
Proof. apply includes_iff. now exists a, b. Qed.

(** What [executeTool] does once the tool is resolved. *)
Lemma executeTool_found (toolName input : jsstring) (m : Machine W) (tool : Tool W) :
  find (fun t => JS.eqb (name t) toolName) (tools self) = Some tool ->
  executeTool self toolName input m
  = (mkMachine (fst (func tool input (world m))) (trace m ++ [EvTool toolName input]),
     match snd (func tool input (world m)) with
     | Returned observation => Normal observation
     | Thrown (Convertible e) =>
         Normal (lit "Error executing tool '" ++ toolName ++ lit "': "
                 ++ thrownToString e)
     | Thrown (Unconvertible raised) => Throw raised
     end).
Proof.
  intros Hfind. unfold executeTool. rewrite Hfind. unfold tryAwaitTool.
  destruct (func tool input (world m)) as [w' [observation|[e|raised]]]; reflexivity.
Qed.

Lemma executeTool_cases (toolName input : jsstring) (m : Machine W) :
  exists m' r,
    executeTool self toolName input m = (m', r)
    /\ (trace m' = trace m \/ trace m' = trace m ++ [EvTool toolName input]).
Proof.
  destruct (find (fun t => JS.eqb (name t) toolName) (tools self)) as [tool|] eqn:Hfind.
  - rewrite (executeTool_found toolName input m tool Hfind).
    eexists _, _. split; [reflexivity | now right].
  - unfold executeTool. rewrite Hfind.
    eexists _, _. split; [reflexivity | now left].
Qed.

(** [executeTool] returns an observation unless the resolved tool throws
    a value that cannot be converted to a string. *)
Lemma executeTool_returns (toolName input : jsstring) (m : Machine W) :
  (forall tool w' raised,
      find (fun t => JS.eqb (name t) toolName) (tools self) = Some tool ->
      func tool input (world m) <> (w', Thrown (Unconvertible raised))) ->
  exists m' observation,
    executeTool self toolName input m = (m', Normal observation)
    /\ (trace m' = trace m \/ trace m' = trace m ++ [EvTool toolName input]).
Proof.
  intros Hconv.
  destruct (find (fun t => JS.eqb (name t) toolName) (tools self)) as [tool|] eqn:Hfind.
  - rewrite (executeTool_found toolName input m tool Hfind).
    specialize (Hconv tool).
    destruct (func tool input (world m)) as [w' [observation|[e|raised]]];
      cbn [fst snd].
    + eexists _, _. split; [reflexivity | now right].
    + eexists _, _. split; [reflexivity | now right].
    + exfalso. now apply (Hconv w' raised).
  - unfold executeTool. rewrite Hfind.
    eexists _, _. split; [reflexivity | now left].
Qed.

Lemma act_dispatches (response scratchpad a i : jsstring) (m : Machine W) :
  action (parseAgentResponse response) = Some a ->
  a <> [] ->
  actionInput (parseAgentResponse response) = Some i ->
  act self response scratchpad m =
  bind (executeTool self a i)
       (fun observation => ret (Next (scratchpad ++ dispatchBlock a i observation))) m.
Proof.
  intros Ha Hne Hi. unfold act. rewrite Ha, Hi.
  destruct a as [|c a]; [congruence |]. cbn [truthy].
  unfold bind. destruct (executeTool self (c :: a) i m) as [m' [observation|e]].
  - unfold ret, dispatchBlock.
    destruct (truthy (thought (parseAgentResponse response)));
      repeat rewrite <- app_assoc; reflexivity.
  - reflexivity.
Qed.

Lemma act_thought_only (response scratchpad : jsstring) (m : Machine W) :
  action (parseAgentResponse response) = None
  \/ action (parseAgentResponse response) = Some []
  \/ actionInput (parseAgentResponse response) = None ->
  act self response scratchpad m =
  (m, Normal (Next (scratchpad ++ thought (parseAgentResponse response) ++ [LF]))).
Proof.
  intros H. unfold act.
  destruct (action (parseAgentResponse response)) as [a|] eqn:Ha;
    destruct (actionInput (parseAgentResponse response)) as [i|] eqn:Hi;
    try reflexivity.
  - destruct H as [H | [H | H]]; try discriminate.
    injection H as ->. reflexivity.
Qed.

(** After the client's response the pass returns, unless a tool throws a
    value that cannot be converted to a string. *)
Lemma act_returns (response scratchpad : jsstring) (m : Machine W) :
  (forall t i w' raised,
      In t (tools self) -> func t i (world m) <> (w', Thrown (Unconvertible raised))) ->
  exists m' scratchpad',
    act self response scratchpad m = (m', Normal (Next scratchpad')).
Proof.
  intros Hconv.
  destruct (action (parseAgentResponse response)) as [a|] eqn:Ha.
  - destruct (actionInput (parseAgentResponse response)) as [i|] eqn:Hi.
    + destruct a as [|c a].
      * rewrite act_thought_only by (right; now left). now eexists _, _.
      * rewrite (act_dispatches response scratchpad (c :: a) i m Ha) by (congruence || exact Hi).
        unfold bind.
        destruct (executeTool_returns (c :: a) i m) as [m' [observation [-> _]]].
        -- intros tool w' raised Hfind. apply Hconv.
           apply find_some in Hfind. apply Hfind.
        -- now eexists _, _.
    + rewrite act_thought_only by (right; now right). now eexists _, _.
  - rewrite act_thought_only by now left. now eexists _, _.
Qed.

End DispatchFacts.




(* ===================================================================== *)
(** ** One pass of the loop *)
(* ===================================================================== *)

Section PassFacts.

Context {W : Type}.
Variable self : ReactAgent.t W.

Import ReactAgent.

Lemma pass_without_final_answer (input scratchpad response : jsstring)
    (m : Machine W) (w' : W) :
  generate (llm self) (createPrompt self input scratchpad) (world m)
    = (w', Normal response) ->
  loopFinalAnswer response = None ->
  pass self input scratchpad m =
  act self response scratchpad
    (mkMachine w' (trace m ++ [EvGenerate (createPrompt self input scratchpad)])).
Proof.
  intros Hgen Hnone. unfold pass, bind, await. rewrite Hgen.
  unfold loopFinalAnswer in Hnone.
  destruct (includes FINAL_ANSWER response); [|reflexivity].
  destruct (finalAnswerMatch response); [discriminate | reflexivity].
Qed.

End PassFacts.



(** C10: the tool is dispatched exactly when the parsed action is a
    non-empty string and the action input is present.  Then the pass is
    the call of [executeTool] on that action and input followed by the
    scratchpad update, and a registered tool is called with that very
    input, the empty string included; when the action is absent or empty,
    or the input is absent, the pass only appends the thought and calls
    no tool.  The response [Action: weather / Action Input:] calls
    [weather] with the empty string; the response
    [Action: / Action Input: Paris] calls nothing. *)
Theorem dispatch_exactly_when {W : Type} (self : ReactAgent.t W)
    (response scratchpad : jsstring) (m : Machine W) :
  let step := ReactAgent.parseAgentResponse response in
  (forall a i,
      action step = Some a -> a <> [] -> actionInput step = Some i ->
      ReactAgent.act self response scratchpad m
      = bind (ReactAgent.executeTool self a i)
          (fun observation =>
             ret (ReactAgent.Next (scratchpad ++ dispatchBlock a i observation))) m
      /\ (forall tool,
            find (fun t => JS.eqb (name t) a) (ReactAgent.tools self) = Some tool ->
            trace (fst (ReactAgent.act self response scratchpad m))
            = trace m ++ [EvTool a i]))
  /\ (action step = None \/ action step = Some [] \/ actionInput step = None ->
      ReactAgent.act self response scratchpad m
      = (m, Normal (ReactAgent.Next (scratchpad ++ thought step ++ [LF]))))
  /\ (let r := lines2 (lit "Action: weather") (lit "Action Input:") in
      action (ReactAgent.parseAgentResponse r) = Some (lit "weather")
      /\ actionInput (ReactAgent.parseAgentResponse r) = Some (lit "")
      /\ trace (fst (ReactAgent.act (demoAgent (lit "")) r [] (mkMachine tt [])))
         = [EvTool (lit "weather") (lit "")])
  /\ (let r := lines2 (lit "Action:") (lit "Action Input: Paris") in
      action (ReactAgent.parseAgentResponse r) = Some (lit "")
      /\ actionInput (ReactAgent.parseAgentResponse r) = Some (lit "Paris")
      /\ ReactAgent.act (demoAgent (lit "")) r [] (mkMachine tt [])
         = (mkMachine tt [], Normal (ReactAgent.Next [LF]))).
Proof.
  intros step. split; [|split; [|split]].
  - intros a i Ha Hne Hi. split.
    + apply act_dispatches; assumption.
    + intros tool Hfind.
      rewrite (act_dispatches self response scratchpad a i m Ha Hne Hi).
      unfold bind, ReactAgent.executeTool. rewrite Hfind.
      unfold tryAwaitTool.
      destruct (func tool i (world m)) as [w' [observation|[e|raised]]]; reflexivity.
  - apply act_thought_only.
  - vm_compute. repeat split.
  - vm_compute. repeat split.
Qed.

(** C10 (witness): both branches on the registry of [main]. *)
Lemma dispatch_exactly_when_witness :
  ReactAgent.act (demoAgent (lit ""))
    (lines2 (lit "Action: weather") (lit "Action Input:")) [] (mkMachine tt [])
  = bind (ReactAgent.executeTool (demoAgent (lit "")) (lit "weather") (lit ""))
      (fun observation =>
         ret (ReactAgent.Next ([] ++ dispatchBlock (lit "weather") (lit "") observation)))
      (mkMachine tt [])
  /\ ReactAgent.act (demoAgent (lit ""))
       (lines2 (lit "Thought: hm") (lit "Action:")) [] (mkMachine tt [])
     = (mkMachine tt [], Normal (ReactAgent.Next (lit "hm" ++ [LF]))).
Proof.
  split.
  - refine (proj1 (proj1 (dispatch_exactly_when (demoAgent (lit ""))
               (lines2 (lit "Action: weather") (lit "Action Input:")) []
               (mkMachine tt [])) (lit "weather") (lit "") _ _ _)).
    + vm_compute. reflexivity.
    + discriminate.
    + vm_compute. reflexivity.
  - refine (proj1 (proj2 (dispatch_exactly_when (demoAgent (lit ""))
               (lines2 (lit "Thought: hm") (lit "Action:")) []
               (mkMachine tt []))) _).
    right. left. vm_compute. reflexivity.
Defined.

(* ===================================================================== *)
(** ** Exhausting the iterations *)
(* ===================================================================== *)

Section LoopFacts.

Context {W : Type}.
Variable self : ReactAgent.t W.

Import ReactAgent.

Lemma lastValue_absent (p : jsstring) (lines : list jsstring) :
  forallb (fun l => negb (startsWith p l)) lines = true ->
  lastValue p (beforeFinalAnswer lines) = None.
Proof.
  induction lines as [|l ls IH]; cbn [forallb beforeFinalAnswer]; intros H.
  - reflexivity.
  - apply andb_true_iff in H. destruct H as [Hl Hls].
    destruct (startsWith FINAL_ANSWER l); [reflexivity |].
    rewrite lastValue_cons, (IH Hls).
    apply negb_true_iff in Hl. now rewrite Hl.
Qed.

Lemma forallb_weaken {A} (f g : A -> bool) (l : list A) :
  (forall x, f x = true -> g x = true) ->
  forallb f l = true -> forallb g l = true.
Proof.
  intros Hfg. rewrite !forallb_forall. intros H x Hx. apply Hfg, H, Hx.
Qed.

Lemma plain_parse (r : jsstring) :
  plain r = true ->
  includes FINAL_ANSWER r = false
  /\ thought (parseAgentResponse r) = []
  /\ action (parseAgentResponse r) = None.
Proof.
  unfold plain. intros H. apply andb_true_iff in H. destruct H as [Hinc Hlines].
  apply negb_true_iff in Hinc. split; [exact Hinc |].
  destruct (parseAgentResponse_last r) as [Ht [Ha _]].
  rewrite Ht, Ha. rewrite !lastValue_absent; [now split | |].
  - revert Hlines. apply forallb_weaken. intros l Hl.
    apply andb_true_iff in Hl. destruct Hl as [Hl _].
    apply andb_true_iff in Hl. apply Hl.
  - revert Hlines. apply forallb_weaken. intros l Hl.
    apply andb_true_iff in Hl. destruct Hl as [Hl _].
    apply andb_true_iff in Hl. apply Hl.
Qed.

Lemma generateCalls_snoc (t : list Event) (prompt : jsstring) :
  generateCalls (t ++ [EvGenerate prompt]) = S (generateCalls t).
Proof.
  unfold generateCalls. rewrite filter_app, length_app. simpl. lia.
Qed.

Lemma toolCalls_snoc (t : list Event) (prompt : jsstring) :
  toolCalls (t ++ [EvGenerate prompt]) = toolCalls t.
Proof.
  unfold toolCalls. rewrite filter_app. simpl. apply app_nil_r.
Qed.

Hypothesis client_plain :
  forall prompt w, exists w' r,
    generate (llm self) prompt w = (w', Normal r) /\ plain r = true.

Lemma loop_plain (input : jsstring) (remaining : nat) :
  forall scratchpad m,
  exists m',
    loop self remaining input scratchpad m = (m', Normal [])
    /\ generateCalls (trace m') = generateCalls (trace m) + remaining
    /\ toolCalls (trace m') = toolCalls (trace m).
Proof.
  induction remaining as [|n IH]; intros scratchpad m.
  - exists m. simpl. repeat split. lia.
  - destruct (client_plain (createPrompt self input scratchpad) (world m))
      as [w' [r [Hgen Hplain]]].
    destruct (plain_parse r Hplain) as [Hinc [Hth Hact]].
    cbn [loop]. unfold bind at 1.
    rewrite (pass_without_final_answer self input scratchpad r m w' Hgen)
      by (unfold loopFinalAnswer; now rewrite Hinc).
    rewrite act_thought_only by now left.
    destruct (IH (scratchpad ++ thought (parseAgentResponse r) ++ [LF])
                (mkMachine w' (trace m ++ [EvGenerate (createPrompt self input scratchpad)])))
      as [m' [E [Hg Ht]]].
    exists m'. rewrite E. cbn [trace] in Hg, Ht.
    rewrite generateCalls_snoc in Hg. rewrite toolCalls_snoc in Ht.
    repeat split; [lia | exact Ht].
Qed.

End LoopFacts.



(* ===================================================================== *)
(** ** The final answer *)
(* ===================================================================== *)

Section FinalAnswerFacts.

Lemma dotPlus_none_iff (s : jsstring) :
  dotPlus s = None <-> s = [] \/ exists c s', s = c :: s' /\ isLineTerminator c = true.
Proof.
  unfold dotPlus. destruct s as [|c s']; cbn [takeWhile].
  - split; [now left | reflexivity].
  - destruct (isLineTerminator c) eqn:E; cbn [negb].
    + split; [intros _; right; now exists c, s' | reflexivity].
    + split; [discriminate |].
      intros [H | [c' [s'' [H E']]]]; [discriminate |].
      injection H as <- <-. congruence.
Qed.

Lemma lineTerminator_isSpace (c : char) :
  isLineTerminator c = true -> isSpace c = true.
Proof. unfold isSpace. intros ->. apply orb_true_r. Qed.

(** After the marker the pattern fails exactly on a text made of line
    terminators only. *)
Lemma spacesThenDotPlus_none_iff (s : jsstring) :
  spacesThenDotPlus s = None <-> forallb isLineTerminator s = true.
Proof.
  induction s as [|c s IH]; cbn [spacesThenDotPlus forallb].
  - split; reflexivity.
  - destruct (isSpace c) eqn:Es.
    + destruct (spacesThenDotPlus s) as [cap|] eqn:E.
      * split; [discriminate |]. intros H. apply andb_true_iff in H.
        destruct H as [_ H]. apply IH in H. discriminate.
      * rewrite dotPlus_none_iff. rewrite (proj1 IH eq_refl), andb_true_r. split.
        -- intros [H | [c' [s' [H E']]]]; [discriminate |]. now injection H as <- <-.
        -- intros H. right. now exists c, s.
    + rewrite dotPlus_none_iff. split.
      * intros [H | [c' [s' [H E']]]]; [discriminate |]. injection H as <- <-.
        apply lineTerminator_isSpace in E'. congruence.
      * intros H. apply andb_true_iff in H. destruct H as [H _].
        apply lineTerminator_isSpace in H. congruence.
Qed.

Lemma substring_marker (rest : jsstring) :
  substring 13 (FINAL_ANSWER ++ rest) = rest.
Proof. reflexivity. Qed.

Lemma finalAnswerMatch_unfold (s : jsstring) :
  finalAnswerMatch s =
  match matchAt s with
  | Some cap => Some cap
  | None => match s with [] => None | _ :: s' => finalAnswerMatch s' end
  end.
Proof. destruct s; reflexivity. Qed.

(** The pattern finds no match exactly when every occurrence of the
    marker is followed by line terminators only, up to the end of the
    text. *)
Lemma finalAnswerMatch_none_iff (r : jsstring) :
  finalAnswerMatch r = None <->
  forall pre rest, r = pre ++ FINAL_ANSWER ++ rest ->
                   forallb isLineTerminator rest = true.
Proof.
  induction r as [|x r IH]; rewrite finalAnswerMatch_unfold.
  - split; [|reflexivity]. intros _ pre rest H.
    destruct pre; discriminate.
  - unfold matchAt. destruct (startsWith FINAL_ANSWER (x :: r)) eqn:E.
    + apply startsWith_iff in E. destruct E as [rest0 E]. rewrite E at 1.
      rewrite substring_marker.
      destruct (spacesThenDotPlus rest0) as [cap|] eqn:Em.
      * split; [discriminate |]. intros H.
        specialize (H [] rest0 E). apply spacesThenDotPlus_none_iff in H. congruence.
      * rewrite IH. split.
        -- intros H pre rest Hr. destruct pre as [|y pre]; cbn [app] in Hr.
           ++ assert (rest = rest0) as ->
                by (rewrite E in Hr; now apply app_inv_head in Hr).
              now apply spacesThenDotPlus_none_iff.
           ++ injection Hr as _ Hr. now apply (H pre).
        -- intros H pre rest Hr. apply (H (x :: pre)). cbn [app]. now rewrite Hr.
    + rewrite IH. split.
      * intros H pre rest Hr. destruct pre as [|y pre]; cbn [app] in Hr.
        -- rewrite Hr, startsWith_app in E. discriminate.
        -- injection Hr as _ Hr. now apply (H pre).
      * intros H pre rest Hr. apply (H (x :: pre)). cbn [app]. now rewrite Hr.
Qed.

Lemma finalAnswerMatch_includes (r capture : jsstring) :
  finalAnswerMatch r = Some capture -> includes FINAL_ANSWER r = true.
Proof.
  intros H. destruct (includes FINAL_ANSWER r) eqn:E; [reflexivity |].
  assert (finalAnswerMatch r = None) as Hn; [|congruence].
  apply finalAnswerMatch_none_iff. intros pre rest Hr.
  assert (includes FINAL_ANSWER r = true) by (apply includes_iff; now exists pre, rest).
  congruence.
Qed.

Context {W : Type}.
Variable self : ReactAgent.t W.

Import ReactAgent.

Lemma pass_break (input scratchpad response capture : jsstring)
    (m : Machine W) (w' : W) :
  generate (llm self) (createPrompt self input scratchpad) (world m)
    = (w', Normal response) ->
  finalAnswerMatch response = Some capture ->
  pass self input scratchpad m =
  (mkMachine w' (trace m ++ [EvGenerate (createPrompt self input scratchpad)]),
   Normal (Break (trim capture))).
Proof.
  intros Hgen Hm. unfold pass, bind, await. rewrite Hgen.
  rewrite (finalAnswerMatch_includes _ _ Hm), Hm. reflexivity.
Qed.

Lemma loop_reaches (input : jsstring) n sp m n' sp' m' :
  Reaches self input n sp m n' sp' m' ->
  loop self n input sp m = loop self n' input sp' m'.
Proof.
  induction 1 as [|n sp m sp1 m1 n' sp' m' Hpass _ IH].
  - reflexivity.
  - cbn [loop]. unfold bind at 1. rewrite Hpass. exact IH.
Qed.

End FinalAnswerFacts.

(** C1 (as amended): whenever the response of an iteration matches the
    pattern [Final Answer:\s*(.+)] (the marker is followed somewhere by a
    character other than a line terminator), that iteration ends with
    [break]: no tool is called and the client is not called again; and
    when the captured text, trimmed, is not empty, it is the output of the
    turn.  The response [Final Answer: 42] ends the turn of the demo
    agent after one call, with output [42]. *)
Theorem final_answer_ends_turn {W : Type} (self : ReactAgent.t W)
    (input scratchpad response capture : jsstring) (w w' : W) (m : Machine W)
    (remaining : nat) :
  let prompt := ReactAgent.createPrompt self input scratchpad in
  Reaches self input (ReactAgent.maxIterations self) [] (mkMachine w [])
          (S remaining) scratchpad m ->
  generate (ReactAgent.llm self) prompt (world m) = (w', Normal response) ->
  finalAnswerMatch response = Some capture ->
  ReactAgent.pass self input scratchpad m
  = (mkMachine w' (trace m ++ [EvGenerate prompt]),
     Normal (ReactAgent.Break (trim capture)))
  /\ (trim capture <> [] ->
      ReactAgent.runInvoke self input w
      = (mkMachine w' (trace m ++ [EvGenerate prompt]), Normal (trim capture)))
  /\ (finalAnswerMatch (lit "Final Answer: 42") = Some (lit "42")
      /\ ReactAgent.runInvoke (demoAgent (lit "Final Answer: 42")) (lit "q") tt
         = (mkMachine tt
              [EvGenerate
                 (ReactAgent.createPrompt (demoAgent (lit "Final Answer: 42"))
                    (lit "q") [])],
            Normal (lit "42")))
  /\ (forall r,
        finalAnswerMatch r = None <->
        (forall pre rest, r = pre ++ FINAL_ANSWER ++ rest ->
                          forallb isLineTerminator rest = true)).
Proof.
  intros prompt Hreach Hgen Hm.
  pose proof (pass_break self input scratchpad response capture m w' Hgen Hm) as Hpass.
  split; [exact Hpass | split; [|split]].
  - intros Hne. unfold ReactAgent.runInvoke, ReactAgent.invoke, bind.
    change (lit "") with (@nil char).
    rewrite (loop_reaches self input _ _ _ _ _ _ Hreach).
    cbn [ReactAgent.loop]. unfold bind. rewrite Hpass. unfold ret.
    destruct (trim capture); [congruence | reflexivity].
  - split; vm_compute; reflexivity.
  - apply finalAnswerMatch_none_iff.
Qed.

(** C1 (witness): the scripted model first asks for the weather, then
    gives its final answer in the second iteration. *)
Lemma final_answer_ends_turn_witness :
  ReactAgent.runInvoke scriptedAgent (lit "Weather?")
    [lines2 (lit "Action: weather") (lit "Action Input: Paris");
     lines2 (lit "Thought: done") (lit "Final Answer: sunny")]
  = (mkMachine []
       [EvGenerate (ReactAgent.createPrompt scriptedAgent (lit "Weather?") []);
        EvTool (lit "weather") (lit "Paris");
        EvGenerate
          (ReactAgent.createPrompt scriptedAgent (lit "Weather?")
             (dispatchBlock (lit "weather") (lit "Paris")
                (lit "The weather in Paris is sunny and 72" ++ [172; 8734]%N
                 ++ lit "F (this is mock data)")))],
     Normal (lit "sunny")).
Proof.
  refine (proj1 (proj2
    (final_answer_ends_turn scriptedAgent (lit "Weather?")
       (dispatchBlock (lit "weather") (lit "Paris")
          (lit "The weather in Paris is sunny and 72" ++ [172; 8734]%N
           ++ lit "F (this is mock data)"))
       (lines2 (lit "Thought: done") (lit "Final Answer: sunny"))
       (lit "sunny")
       [lines2 (lit "Action: weather") (lit "Action Input: Paris");
        lines2 (lit "Thought: done") (lit "Final Answer: sunny")]
       []
       (mkMachine [lines2 (lit "Thought: done") (lit "Final Answer: sunny")]
          [EvGenerate (ReactAgent.createPrompt scriptedAgent (lit "Weather?") []);
           EvTool (lit "weather") (lit "Paris")])
       1 _ _ _)) _).
  - eapply reaches_next; [|apply reaches_here]. vm_compute. reflexivity.
  - reflexivity.
  - vm_compute. reflexivity.
  - vm_compute. discriminate.
Defined.

(** C1 (counterexample): the response [Final Answer:] contains the marker,
    yet the loop does not stop on it: a client that always gives this
    response is called in all three iterations and the turn ends with the
    exhaustion message; and after this response in the first iteration the
    second one is still run, its answer being the output. *)
Lemma marker_alone_does_not_end_turn :
  includes FINAL_ANSWER (lit "Final Answer:") = true
  /\ generateCalls
       (trace (fst (ReactAgent.runInvoke (demoAgent (lit "Final Answer:")) (lit "q") tt)))
     = 3
  /\ snd (ReactAgent.runInvoke (demoAgent (lit "Final Answer:")) (lit "q") tt)
     = Normal (lit "I couldn't complete the task within the maximum iterations.")
  /\ generateCalls
       (trace (fst (ReactAgent.runInvoke scriptedAgent (lit "q")
                      [lit "Final Answer:"; lit "Final Answer: 7"])))
     = 2
  /\ snd (ReactAgent.runInvoke scriptedAgent (lit "q")
            [lit "Final Answer:"; lit "Final Answer: 7"])
     = Normal (lit "7").
Proof.
  vm_compute. repeat split.
Qed.

(* ===================================================================== *)
(** ** The built-in tools *)
(* ===================================================================== *)

Section CalculatorFacts.

Lemma referenceEngine_conforms : EngineConforms referenceEngine.
Proof.
  intros body. unfold referenceEngine.
  destruct (Arith.evalBody body) as [[s|n]|].
  - reflexivity.
  - eexists. reflexivity.
  - exact I.
Qed.

Variable engine : jsstring -> Completion jsstring.

Lemma calculator_rejects (expression : jsstring) :
  forallb (has allowedChars) (trim expression) = false ->
  simpleCalculator engine expression
  = Normal (lit "Error: Invalid characters in expression").
Proof. intros H. unfold simpleCalculator. rewrite H. reflexivity. Qed.

Lemma calculator_evaluates (expression : jsstring) :
  forallb (has allowedChars) (trim expression) = true ->
  simpleCalculator engine expression
  = match engine (functionBody (trim expression)) with
    | Normal rendering => Normal rendering
    | Throw _ => Normal (lit "Error: Could not evaluate expression")
    end.
Proof.
  intros H. unfold simpleCalculator. rewrite H.
  destruct (engine (functionBody (trim expression))); reflexivity.
Qed.

Lemma calculator_returns (expression : jsstring) :
  exists s, simpleCalculator engine expression = Normal s.
Proof.
  destruct (forallb (has allowedChars) (trim expression)) eqn:E.
  - rewrite (calculator_evaluates _ E).
    destruct (engine (functionBody (trim expression))); eexists; reflexivity.
  - rewrite (calculator_rejects _ E). eexists; reflexivity.
Qed.

Hypothesis conforms : EngineConforms engine.

(** On an expression of the arithmetic fragment the calculator returns
    the rendering the fragment prescribes. *)
Lemma calculator_on_fragment (expression rendering : jsstring) :
  forallb (has allowedChars) (trim expression) = true ->
  Arith.evalBody (functionBody (trim expression)) = Some (Arith.Value rendering) ->
  simpleCalculator engine expression = Normal rendering.
Proof.
  intros Hok Hval. rewrite (calculator_evaluates _ Hok).
  pose proof (conforms (functionBody (trim expression))) as H.
  rewrite Hval in H. now rewrite H.
Qed.

Lemma calculator_on_fragment_error (expression errorName : jsstring) :
  forallb (has allowedChars) (trim expression) = true ->
  Arith.evalBody (functionBody (trim expression)) = Some (Arith.Throws errorName) ->
  simpleCalculator engine expression
  = Normal (lit "Error: Could not evaluate expression").
Proof.
  intros Hok Hval. rewrite (calculator_evaluates _ Hok).
  pose proof (conforms (functionBody (trim expression))) as H.
  rewrite Hval in H. destruct H as [e ->]. reflexivity.
Qed.

End CalculatorFacts.

Lemma div_by_zero (x : Arith.Number) (s : bool) :
  Arith.div x (Arith.Int s 0) = Some Arith.NaN
  \/ exists s', Arith.div x (Arith.Int s 0) = Some (Arith.Infinity s').
Proof.
  destruct x as [|sx|sx m]; cbn.
  - now left.
  - right. now eexists.
  - destruct (N.eqb m 0); [now left | right; now eexists].
Qed.

(** C5 (as amended): the calculator validates the TRIMMED expression.
    When every character of the trimmed expression is in
    [0123456789+-*/.() ], the tool has the engine evaluate it and returns
    the rendering of the value, or
    [Error: Could not evaluate expression] when the evaluation throws;
    on an engine that conforms to integer arithmetic, [2 + 2] gives [4]
    and [15 * 23] gives [345].  When the trimmed expression has a
    character outside the set, the tool returns
    [Error: Invalid characters in expression], which contains
    [Invalid characters], whatever the engine: the expression is not
    evaluated; so it is for [alert(1)]. *)
Theorem calculator_validates_trimmed (engine : jsstring -> Completion jsstring)
    (expression : jsstring) :
  EngineConforms engine ->
  (forallb (has allowedChars) (trim expression) = true ->
   simpleCalculator engine expression
   = match engine (functionBody (trim expression)) with
     | Normal rendering => Normal rendering
     | Throw _ => Normal (lit "Error: Could not evaluate expression")
     end)
  /\ simpleCalculator engine (lit "2 + 2") = Normal (lit "4")
  /\ simpleCalculator engine (lit "15 * 23") = Normal (lit "345")
  /\ (forallb (has allowedChars) (trim expression) = false ->
      forall engine',
        simpleCalculator engine' expression
        = Normal (lit "Error: Invalid characters in expression"))
  /\ includes (lit "Invalid characters")
       (lit "Error: Invalid characters in expression") = true
  /\ (forall engine',
        simpleCalculator engine' (lit "alert(1)")
        = Normal (lit "Error: Invalid characters in expression")).
Proof.
  intros Hconf.
  split; [apply calculator_evaluates |].
  split; [apply (calculator_on_fragment engine Hconf); vm_compute; reflexivity |].
  split; [apply (calculator_on_fragment engine Hconf); vm_compute; reflexivity |].
  split; [intros H engine'; now apply calculator_rejects |].
  split; [vm_compute; reflexivity |].
  intros engine'. apply calculator_rejects. vm_compute. reflexivity.
Qed.

(** C5 (witness): the reference engine on [ (1 + 2) * 3 ] and on [2 ^ 3]. *)
Lemma calculator_validates_trimmed_witness :
  simpleCalculator referenceEngine (lit " (1 + 2) * 3 ") = Normal (lit "9")
  /\ simpleCalculator referenceEngine (lit "2 ^ 3")
     = Normal (lit "Error: Invalid characters in expression").
Proof.
  split.
  - exact (proj1 (calculator_validates_trimmed referenceEngine (lit " (1 + 2) * 3 ")
                    referenceEngine_conforms) eq_refl).
  - refine (proj1 (proj2 (proj2 (proj2
             (calculator_validates_trimmed referenceEngine (lit "2 ^ 3")
                referenceEngine_conforms)))) _ referenceEngine).
    vm_compute. reflexivity.
Defined.

(** C5 (counterexample): [1 +] and the empty expression have only allowed
    characters, and the tool returns an error string, not an arithmetic
    result; the expression made of a TAB and [2 + 2] has a character
    outside the set, and the tool returns [4], not an error. *)
Lemma calculator_claim_fails :
  forallb (has allowedChars) (lit "1 +") = true
  /\ Arith.evalBody (functionBody (trim (lit "1 +")))
     = Some (Arith.Throws (lit "SyntaxError"))
  /\ simpleCalculator referenceEngine (lit "1 +")
     = Normal (lit "Error: Could not evaluate expression")
  /\ forallb (has allowedChars) (lit "") = true
  /\ Arith.evalBody (functionBody (trim (lit "")))
     = Some (Arith.Throws (lit "SyntaxError"))
  /\ simpleCalculator referenceEngine (lit "")
     = Normal (lit "Error: Could not evaluate expression")
  /\ forallb (has allowedChars) (9%N :: lit "2 + 2") = false
  /\ Arith.evalBody (functionBody (trim (9%N :: lit "2 + 2")))
     = Some (Arith.Value (lit "4"))
  /\ simpleCalculator referenceEngine (9%N :: lit "2 + 2") = Normal (lit "4")
  /\ includes (lit "Invalid characters") (lit "4") = false.
Proof.
  vm_compute. repeat split.
Qed.

(** C6 (as amended): the calculator returns normally for every input
    string and every behaviour of the engine.  A character outside the
    set in the TRIMMED expression yields the returned string
    [Error: Invalid characters in expression]; an evaluation that throws
    yields the returned string [Error: Could not evaluate expression];
    a division by a zero evaluates to NaN or to an infinity of either
    sign, and on a conforming engine [1/0] returns [Infinity], [0/0]
    returns [NaN] and [-1/0] returns [-Infinity]. *)
Theorem calculator_never_throws (engine : jsstring -> Completion jsstring)
    (expression : jsstring) :
  (exists s, simpleCalculator engine expression = Normal s)
  /\ (forallb (has allowedChars) (trim expression) = false ->
      simpleCalculator engine expression
      = Normal (lit "Error: Invalid characters in expression"))
  /\ (forall e,
        forallb (has allowedChars) (trim expression) = true ->
        engine (functionBody (trim expression)) = Throw e ->
        simpleCalculator engine expression
        = Normal (lit "Error: Could not evaluate expression"))
  /\ (forall x s,
        Arith.div x (Arith.Int s 0) = Some Arith.NaN
        \/ exists s', Arith.div x (Arith.Int s 0) = Some (Arith.Infinity s'))
  /\ (EngineConforms engine ->
      simpleCalculator engine (lit "1/0") = Normal (lit "Infinity")
      /\ simpleCalculator engine (lit "0/0") = Normal (lit "NaN")
      /\ simpleCalculator engine (lit "-1/0") = Normal (lit "-Infinity")).
Proof.
  split; [apply calculator_returns |].
  split; [apply calculator_rejects |].
  split.
  - intros e Hok Hthrow. rewrite (calculator_evaluates engine _ Hok), Hthrow.
    reflexivity.
  - split; [apply div_by_zero |].
    intros Hconf.
    repeat split; apply (calculator_on_fragment engine Hconf); vm_compute; reflexivity.
Qed.

(** C6 (witness): the reference engine, and an engine that always throws. *)
Lemma calculator_never_throws_witness :
  simpleCalculator referenceEngine (lit "7 % 2")
  = Normal (lit "Error: Invalid characters in expression")
  /\ simpleCalculator (fun _ => Throw (ThrownString (lit "boom"))) (lit "1 + 1")
     = Normal (lit "Error: Could not evaluate expression")
  /\ simpleCalculator referenceEngine (lit "1/0") = Normal (lit "Infinity").
Proof.
  split; [|split].
  - refine (proj1 (proj2 (calculator_never_throws referenceEngine (lit "7 % 2"))) _).
    vm_compute. reflexivity.
  - refine (proj1 (proj2 (proj2
             (calculator_never_throws (fun _ => Throw (ThrownString (lit "boom")))
                (lit "1 + 1"))))
             (ThrownString (lit "boom")) _ _); vm_compute; reflexivity.
  - exact (proj1 (proj2 (proj2 (proj2 (proj2
             (calculator_never_throws referenceEngine (lit "")))))
             referenceEngine_conforms)).
Defined.

(** C6 (counterexample): the expression made of a TAB and [1] has a
    character outside the set and the tool returns [1], not an error
    string; and the division by zero [-1/0] returns [-Infinity], which is
    neither [Infinity] nor [NaN]. *)
Lemma calculator_strings_claim_fails :
  forallb (has allowedChars) (9%N :: lit "1") = false
  /\ Arith.evalBody (functionBody (trim (9%N :: lit "1")))
     = Some (Arith.Value (lit "1"))
  /\ simpleCalculator referenceEngine (9%N :: lit "1") = Normal (lit "1")
  /\ Arith.evalBody (functionBody (lit "-1/0")) = Some (Arith.Value (lit "-Infinity"))
  /\ simpleCalculator referenceEngine (lit "-1/0") = Normal (lit "-Infinity")
  /\ lit "-Infinity" <> lit "Infinity" /\ lit "-Infinity" <> lit "NaN".
Proof.
  vm_compute. repeat split; discriminate.
Qed.

(** C9 (the code at the failing input): through the registry the weather
    tool embeds its input as it is: for the empty input the city is the
    empty string, not [New York], although [getWeatherInfo] called
    without an argument does answer for [New York]. *)
Theorem weather_ignores_default_on_empty_input {W : Type}
    (llm : OllamaClient W) (localeNow : W -> jsstring)
    (engine : jsstring -> Completion jsstring) (n : nat) (v : bool)
    (city : jsstring) (m : Machine W) :
  let self := ReactAgent.mk llm (tools localeNow engine) n v in
  ReactAgent.executeTool self (lit "weather") city m
  = (mkMachine (world m) (trace m ++ [EvTool (lit "weather") city]),
     Normal (lit "The weather in " ++ city ++ lit " is sunny and 72"
             ++ [172; 8734]%N ++ lit "F (this is mock data)"))
  /\ ReactAgent.executeTool self (lit "weather") (lit "") m
     = (mkMachine (world m) (trace m ++ [EvTool (lit "weather") (lit "")]),
        Normal (lit "The weather in  is sunny and 72"
                ++ [172; 8734]%N ++ lit "F (this is mock data)"))
  /\ getWeatherInfo None
     = Normal (lit "The weather in New York is sunny and 72"
               ++ [172; 8734]%N ++ lit "F (this is mock data)")
  /\ getWeatherInfo (Some (lit "")) <> getWeatherInfo None.
Proof.
  intros self. repeat split.
  discriminate.
Qed.

(* ===================================================================== *)
(** ** The two extractions of the final answer *)
(* ===================================================================== *)

Section TrimFacts.

Variable p : char -> bool.

Lemma takeWhile_dropWhile (s : jsstring) : s = takeWhile p s ++ dropWhile p s.
Proof.
  induction s as [|c s IH]; cbn [takeWhile dropWhile]; [reflexivity |].
  destruct (p c); [cbn [app]; now rewrite <- IH | reflexivity].
Qed.

Lemma takeWhile_all (s : jsstring) : forallb p (takeWhile p s) = true.
Proof.
  induction s as [|c s IH]; cbn [takeWhile]; [reflexivity |].
  destruct (p c) eqn:E; [cbn [forallb]; now rewrite E | reflexivity].
Qed.

Lemma dropWhile_head (s r : jsstring) (c : char) :
  dropWhile p s = c :: r -> p c = false.
Proof.
  induction s as [|x s IH]; cbn [dropWhile]; [discriminate |].
  destruct (p x) eqn:E; [exact IH |].
  intros H. injection H as <- _. exact E.
Qed.

Lemma dropWhile_app_all (a b : jsstring) :
  forallb p a = true -> dropWhile p (a ++ b) = dropWhile p b.
Proof.
  induction a as [|x a IH]; cbn [forallb app dropWhile]; [reflexivity |].
  intros H. apply andb_true_iff in H. destruct H as [-> H]. now apply IH.
Qed.

Lemma dropWhile_stop (s : jsstring) (c : char) :
  p c = false -> dropWhile p (c :: s) = c :: s.
Proof. intros H. cbn [dropWhile]. now rewrite H. Qed.

Lemma dropWhile_idem (s : jsstring) :
  dropWhile p (dropWhile p s) = dropWhile p s.
Proof.
  destruct (dropWhile p s) as [|c r] eqn:E; [reflexivity |].
  apply dropWhile_stop. exact (dropWhile_head _ _ _ E).
Qed.

Lemma forallb_rev_chars (s : jsstring) :
  forallb p (rev s) = forallb p s.
Proof.
  induction s as [|c s IH]; [reflexivity |].
  cbn [rev forallb]. rewrite forallb_app, IH. cbn [forallb].
  rewrite andb_true_r. apply andb_comm.
Qed.

End TrimFacts.

Section ExtractionFacts.

Import ReactAgent.

Lemma trimEnd_split (s : jsstring) :
  exists w, s = trimEnd s ++ w /\ forallb isSpace w = true.
Proof.
  exists (rev (takeWhile isSpace (rev s))). split.
  - unfold trimEnd. rewrite <- rev_app_distr, <- takeWhile_dropWhile.
    symmetry. apply rev_involutive.
  - rewrite forallb_rev_chars. apply takeWhile_all.
Qed.

Lemma trimEnd_app_spaces (x w : jsstring) :
  forallb isSpace w = true -> trimEnd (x ++ w) = trimEnd x.
Proof.
  intros H. unfold trimEnd. rewrite rev_app_distr, dropWhile_app_all; [reflexivity |].
  now rewrite forallb_rev_chars.
Qed.

Lemma trimEnd_idem (x : jsstring) : trimEnd (trimEnd x) = trimEnd x.
Proof. unfold trimEnd. now rewrite rev_involutive, dropWhile_idem. Qed.

(** A string is its trimmed form between two runs of spaces. *)
Lemma trim_split (s : jsstring) :
  exists lead trail,
    s = lead ++ trim s ++ trail
    /\ forallb isSpace lead = true /\ forallb isSpace trail = true.
Proof.
  destruct (trimEnd_split (trimStart s)) as [w [Hw Hs]].
  exists (takeWhile isSpace s), w. repeat split.
  - unfold trim. rewrite <- Hw. apply takeWhile_dropWhile.
  - apply takeWhile_all.
  - exact Hs.
Qed.

Lemma trim_head (s r : jsstring) (c : char) :
  trim s = c :: r -> isSpace c = false.
Proof.
  unfold trim. intros H.
  destruct (trimEnd_split (trimStart s)) as [w [Hw _]].
  rewrite H in Hw. cbn [app] in Hw.
  exact (dropWhile_head isSpace s _ c Hw).
Qed.

Lemma trim_all_spaces (w : jsstring) : forallb isSpace w = true -> trim w = [].
Proof.
  intros H. unfold trim, trimStart.
  rewrite <- (app_nil_r w), dropWhile_app_all by exact H. reflexivity.
Qed.

(** Spaces after a trimmed string are trimmed away. *)
Lemma trim_trim_spaces (s w : jsstring) :
  forallb isSpace w = true -> trim (trim s ++ w) = trim s.
Proof.
  intros H. destruct (trim s) as [|c r] eqn:E.
  - cbn [app]. now apply trim_all_spaces.
  - unfold trim at 1. unfold trimStart. cbn [app].
    rewrite dropWhile_stop by exact (trim_head _ _ _ E).
    change (c :: r ++ w) with ((c :: r) ++ w).
    rewrite trimEnd_app_spaces by exact H.
    rewrite <- E. unfold trim. apply trimEnd_idem.
Qed.

Lemma includes_sub (q s a b : jsstring) :
  includes q s = true -> includes q (a ++ s ++ b) = true.
Proof.
  rewrite !includes_iff. intros [x [y ->]].
  exists (a ++ x), (y ++ b). now rewrite !app_assoc.
Qed.

Lemma startsWith_includes (q s : jsstring) :
  startsWith q s = true -> includes q s = true.
Proof.
  rewrite startsWith_iff, includes_iff. intros [r ->]. now exists [], r.
Qed.

(** *** Lines *)

Lemma split_head (sep : char) (s : jsstring) :
  exists l ls rest, split sep s = l :: ls /\ s = l ++ rest.
Proof.
  induction s as [|c s IH]; cbn [split].
  - now exists [], [], [].
  - destruct (N.eqb c sep).
    + now exists [], (split sep s), (c :: s).
    + destruct IH as [l [ls [rest [-> Hs]]]].
      exists (c :: l), ls, rest. split; [reflexivity |]. cbn [app]. now rewrite <- Hs.
Qed.

Lemma split_In_sub (sep : char) (s l : jsstring) :
  In l (split sep s) -> exists a b, s = a ++ l ++ b.
Proof.
  revert l. induction s as [|c s IH]; intros l; cbn [split].
  - intros [<- | []]. now exists [], [].
  - destruct (N.eqb c sep).
    + intros [<- | H].
      * now exists [], (c :: s).
      * destruct (IH l H) as [a [b ->]]. now exists (c :: a), b.
    + destruct (split_head sep s) as [l0 [ls [rest [E Hs]]]]. rewrite E in *.
      intros [<- | H].
      * exists [], rest. cbn [app]. now rewrite <- Hs.
      * destruct (IH l (or_intror H)) as [a [b ->]]. now exists (c :: a), b.
Qed.

Lemma split_app (sep : char) (a b : jsstring) :
  split sep (a ++ sep :: b) = split sep a ++ split sep b.
Proof.
  induction a as [|c a IH]; cbn [app split].
  - now rewrite N.eqb_refl.
  - destruct (N.eqb c sep); [now rewrite IH |].
    rewrite IH. destruct (split_head sep a) as [l [ls [rest [-> _]]]]. reflexivity.
Qed.

Lemma split_nosep (sep : char) (s : jsstring) :
  ~ In sep s -> split sep s = [s].
Proof.
  induction s as [|c s IH]; intros H; cbn [split]; [reflexivity |].
  destruct (N.eqb_spec c sep) as [->|_].
  - exfalso. apply H. now left.
  - rewrite IH; [reflexivity |]. intros Hin. apply H. now right.
Qed.

End ExtractionFacts.

Section AgreementFacts.

Import ReactAgent.

Local Open Scope N_scope.

(** *** The parser on the answer line *)

Lemma scanLines_observation (X Y : list jsstring) (body : jsstring) :
  forall step,
  (forall x, In x X -> startsWith FINAL_ANSWER x = false) ->
  observation (scanLines (X ++ (FINAL_ANSWER ++ body) :: Y) step)
  = Some (trim body).
Proof.
  induction X as [|x X IH]; intros step HX.
  - reflexivity.
  - assert (Hx : startsWith FINAL_ANSWER x = false) by (apply HX; now left).
    assert (HX' : forall y, In y X -> startsWith FINAL_ANSWER y = false)
      by (intros y Hy; apply HX; now right).
    cbn [app scanLines]. rewrite Hx.
    destruct (startsWith THOUGHT x); [now apply IH |].
    destruct (startsWith ACTION x); [now apply IH |].
    destruct (startsWith ACTION_INPUT x); now apply IH.
Qed.

Lemma filter_trim_lines (L : list jsstring) (pre : jsstring) :
  includes FINAL_ANSWER pre = false ->
  (forall l, In l L -> exists a b, pre = a ++ l ++ b) ->
  forall x, In x (filter truthy (List.map trim L)) ->
            startsWith FINAL_ANSWER x = false.
Proof.
  intros Hpre HL x Hx. apply filter_In in Hx. destruct Hx as [Hx _].
  apply in_map_iff in Hx. destruct Hx as [l [<- Hl]].
  destruct (startsWith FINAL_ANSWER (trim l)) eqn:E; [|reflexivity].
  apply startsWith_includes in E.
  destruct (trim_split l) as [lead [trail [Hsplit _]]].
  destruct (HL l Hl) as [a [b Hab]].
  assert (includes FINAL_ANSWER pre = true); [|congruence].
  rewrite Hab. apply includes_sub. rewrite Hsplit. now apply includes_sub.
Qed.

(** The lines of a text around one of its lines. *)
Lemma split_around_line (pre line post : jsstring) :
  pre = [] \/ (exists pre', pre = pre' ++ [LF]) ->
  post = [] \/ (exists post', post = LF :: post') ->
  ~ In LF line ->
  exists L1 L2,
    split LF (pre ++ line ++ post) = L1 ++ line :: L2
    /\ forall l, In l L1 -> exists a b, pre = a ++ l ++ b.
Proof.
  intros Hpre Hpost Hline.
  assert (Htail : exists L2, split LF (line ++ post) = line :: L2).
  { destruct Hpost as [-> | [post' ->]].
    - exists []. rewrite app_nil_r. now apply split_nosep.
    - exists (split LF post'). rewrite split_app, split_nosep by exact Hline.
      reflexivity. }
  destruct Htail as [L2 HL2].
  destruct Hpre as [-> | [pre' ->]].
  - exists [], L2. split; [exact HL2 | intros l []].
  - exists (split LF pre'), L2. split.
    + rewrite <- app_assoc. cbn [app]. now rewrite split_app, HL2.
    + intros l Hl. destruct (split_In_sub LF pre' l Hl) as [a [b ->]].
      exists a, (b ++ [LF]). now rewrite <- !app_assoc.
Qed.

Lemma parser_on_answer_line (pre line post body : jsstring) :
  pre = [] \/ (exists pre', pre = pre' ++ [LF]) ->
  post = [] \/ (exists post', post = LF :: post') ->
  includes FINAL_ANSWER pre = false ->
  ~ In LF line ->
  trim line = FINAL_ANSWER ++ body ->
  parserFinalAnswer (pre ++ line ++ post) = Some (trim body).
Proof.
  intros Hpre Hpost Hinc Hline Htrim.
  destruct (split_around_line pre line post Hpre Hpost Hline) as [L1 [L2 [Hs HL1]]].
  unfold parserFinalAnswer, parseAgentResponse, responseLines.
  rewrite Hs, map_app, filter_app. cbn [List.map filter]. rewrite Htrim.
  change (truthy (FINAL_ANSWER ++ body)) with true. cbv iota.
  apply scanLines_observation.
  now apply (filter_trim_lines L1 pre).
Qed.

(** *** The pattern on the answer line *)

Lemma space_not_marker (c : char) (t : jsstring) :
  isSpace c = true -> startsWith FINAL_ANSWER (c :: t) = false.
Proof.
  intros H. change FINAL_ANSWER with (70 :: lit "inal Answer:").
  cbn [startsWith]. destruct (N.eqb_spec 70 c) as [<-|_]; [discriminate | reflexivity].
Qed.

(** When the marker begins [q ++ t], it begins [q] or [q] is made of
    characters of the marker. *)
Lemma startsWith_app_cases (p q t : jsstring) :
  startsWith p (q ++ t) = true ->
  startsWith p q = true \/ forall c, In c q -> In c p.
Proof.
  revert q. induction p as [|a p IH]; intros q H.
  - now left.
  - destruct q as [|b q].
    + right. intros c [].
    + cbn [app startsWith] in H |- *. apply andb_true_iff in H.
      destruct H as [Hab H]. rewrite Hab. cbn [andb].
      apply N.eqb_eq in Hab. subst b.
      destruct (IH q H) as [Hq | Hq]; [now left | right].
      intros c [<- | Hc]; [now left | right; now apply Hq].
Qed.

Lemma matchAt_not_marker (s : jsstring) :
  startsWith FINAL_ANSWER s = false -> matchAt s = None.
Proof. unfold matchAt. now intros ->. Qed.

(** Start positions at which the marker does not begin are passed over. *)
Lemma finalAnswerMatch_skip (p s : jsstring) :
  (forall q1 x q2, p = q1 ++ x :: q2 ->
                   startsWith FINAL_ANSWER ((x :: q2) ++ s) = false) ->
  finalAnswerMatch (p ++ s) = finalAnswerMatch s.
Proof.
  induction p as [|x p IH]; intros H; [reflexivity |].
  rewrite finalAnswerMatch_unfold.
  rewrite matchAt_not_marker by (apply (H [] x p); reflexivity).
  cbn [app]. apply IH. intros q1 y q2 Hp. apply (H (x :: q1) y q2).
  cbn [app]. now rewrite Hp.
Qed.

Lemma no_marker_before_line (pre lead s : jsstring) :
  pre = [] \/ (exists pre', pre = pre' ++ [LF]) ->
  includes FINAL_ANSWER pre = false ->
  forallb isSpace lead = true ->
  forall q1 x q2, pre ++ lead = q1 ++ x :: q2 ->
                  startsWith FINAL_ANSWER ((x :: q2) ++ s) = false.
Proof.
  intros Hpre Hinc Hlead q1 x q2 Hq.
  destruct (startsWith FINAL_ANSWER ((x :: q2) ++ s)) eqn:E; [|reflexivity].
  exfalso.
  (* where the suffix [x :: q2] begins: inside [lead] or inside [pre] *)
  assert (Hcase : (exists l1, lead = l1 ++ x :: q2)
                  \/ (exists y q, x :: q2 = (y :: q) ++ lead /\ pre = q1 ++ y :: q)).
  { clear E Hinc Hlead Hpre. revert q1 Hq.
    induction pre as [|y pre' IHp]; intros q1 Hq.
    - left. now exists q1.
    - destruct q1 as [|z q1]; cbn [app] in Hq.
      + right. injection Hq as <- <-. exists y, pre'. now split.
      + injection Hq as <- Hq. destruct (IHp q1 Hq) as [Hl | [y' [q [H1 H2]]]].
        * now left.
        * right. exists y', q. split; [exact H1 |]. cbn [app]. now rewrite H2. }
  destruct Hcase as [[l1 Hl] | [y [q [Hx Hp]]]].
  - rewrite Hl, forallb_app in Hlead. apply andb_true_iff in Hlead.
    destruct Hlead as [_ Hlead]. cbn [forallb] in Hlead.
    apply andb_true_iff in Hlead. destruct Hlead as [Hsp _].
    cbn [app] in E. rewrite (space_not_marker x _ Hsp) in E. discriminate.
  - rewrite Hx, <- app_assoc in E.
    destruct (startsWith_app_cases _ _ _ E) as [Hin | Hchars].
    + apply startsWith_includes in Hin.
      assert (includes FINAL_ANSWER pre = true); [|congruence].
      rewrite Hp. rewrite <- (app_nil_r (y :: q)). now apply includes_sub.
    + destruct Hpre as [-> | [pre' Hpre']]; [destruct q1; discriminate |].
      assert (In LF (y :: q)).
      { rewrite Hp in Hpre'.
        assert (Hrev : rev (q1 ++ y :: q) = rev (pre' ++ [LF])) by now rewrite Hpre'.
        rewrite !rev_app_distr in Hrev. cbn [rev app] in Hrev.
        destruct (rev q) as [|z rq] eqn:Erq.
        - cbn [app] in Hrev. injection Hrev as -> _. now left.
        - cbn [app] in Hrev. injection Hrev as -> _.
          right. apply in_rev. rewrite Erq. now left. }
      specialize (Hchars LF H). vm_compute in Hchars.
      repeat (destruct Hchars as [Hchars | Hchars]; [discriminate |]).
      exact Hchars.
Qed.

Lemma dotPlus_some (c : char) (s : jsstring) :
  isLineTerminator c = false ->
  dotPlus (c :: s)
  = Some (c :: takeWhile (fun x => negb (isLineTerminator x)) s).
Proof. intros H. unfold dotPlus. cbn [takeWhile]. now rewrite H. Qed.

Lemma not_space_not_terminator (c : char) :
  isSpace c = false -> isLineTerminator c = false.
Proof. unfold isSpace. intros H. apply orb_false_iff in H. apply H. Qed.

(** Leading spaces are consumed up to the first character that is not a
    space. *)
Lemma spacesThenDotPlus_skip (ws t : jsstring) (c : char) :
  forallb isSpace ws = true -> isSpace c = false ->
  spacesThenDotPlus (ws ++ c :: t) = dotPlus (c :: t).
Proof.
  intros Hws Hc. induction ws as [|x ws IH]; cbn [app spacesThenDotPlus].
  - now rewrite Hc.
  - cbn [forallb] in Hws. apply andb_true_iff in Hws. destruct Hws as [-> Hws].
    rewrite (IH Hws), (dotPlus_some c t (not_space_not_terminator c Hc)).
    reflexivity.
Qed.

Lemma takeWhile_app_all (p : char -> bool) (a b : jsstring) :
  forallb p a = true -> takeWhile p (a ++ b) = a ++ takeWhile p b.
Proof.
  induction a as [|x a IH]; cbn [forallb app takeWhile]; [reflexivity |].
  intros H. apply andb_true_iff in H. destruct H as [-> H]. now rewrite IH.
Qed.

(** Up to the end of the line, what follows spaces is spaces. *)
Lemma takeWhile_spaces_then_post (w post : jsstring) :
  forallb isSpace w = true ->
  post = [] \/ (exists post', post = LF :: post') ->
  forallb isSpace (takeWhile (fun x => negb (isLineTerminator x)) (w ++ post)) = true.
Proof.
  intros Hw Hpost. induction w as [|x w IH]; cbn [app].
  - destruct Hpost as [-> | [post' ->]]; reflexivity.
  - cbn [forallb] in Hw. apply andb_true_iff in Hw. destruct Hw as [Hx Hw].
    cbn [takeWhile]. destruct (negb (isLineTerminator x)); [|reflexivity].
    cbn [forallb]. now rewrite Hx, (IH Hw).
Qed.

Lemma pattern_on_answer_line (pre line post body : jsstring) :
  pre = [] \/ (exists pre', pre = pre' ++ [LF]) ->
  post = [] \/ (exists post', post = LF :: post') ->
  includes FINAL_ANSWER pre = false ->
  trim line = FINAL_ANSWER ++ body ->
  trim body <> [] ->
  forallb (fun c => negb (isLineTerminator c)) (trim body) = true ->
  exists spaces,
    forallb isSpace spaces = true
    /\ finalAnswerMatch (pre ++ line ++ post) = Some (trim body ++ spaces).
Proof.
  intros Hpre Hpost Hinc Htrim Hne Hnolt.
  destruct (trim_split line) as [lead [trail [Hline [Hlead Htrail]]]].
  destruct (trim_split body) as [ws [ws2 [Hbody [Hws Hws2]]]].
  destruct (trim body) as [|c core] eqn:Ecore; [congruence |].
  pose proof (trim_head _ _ _ Ecore) as Hc.
  exists (takeWhile (fun x => negb (isLineTerminator x)) ((ws2 ++ trail) ++ post)).
  split.
  - apply takeWhile_spaces_then_post; [|exact Hpost].
    now rewrite forallb_app, Hws2, Htrail.
  - rewrite Hline, Htrim, Hbody.
    replace (pre ++ (lead ++ (FINAL_ANSWER ++ ws ++ (c :: core) ++ ws2) ++ trail) ++ post)
      with ((pre ++ lead)
            ++ FINAL_ANSWER ++ ws ++ c :: (core ++ (ws2 ++ trail) ++ post))
      by (repeat rewrite <- app_assoc; reflexivity).
    rewrite finalAnswerMatch_skip
      by (now apply no_marker_before_line).
    rewrite finalAnswerMatch_unfold. unfold matchAt.
    rewrite startsWith_app, substring_marker.
    rewrite (spacesThenDotPlus_skip ws _ c Hws Hc).
    rewrite (dotPlus_some c _ (not_space_not_terminator c Hc)).
    cbn [forallb] in Hnolt. apply andb_true_iff in Hnolt.
    destruct Hnolt as [_ Hcore].
    rewrite (takeWhile_app_all _ core _ Hcore). reflexivity.
Qed.

End AgreementFacts.

(** C2 (as amended): the two extractions agree on the texts in which the
    first occurrence of [Final Answer:] begins a trimmed line (the text
    before that line has no marker), and the rest of that line is not
    blank and holds, once trimmed, no line terminator: both then detect a
    final answer, and both yield the rest of that line, trimmed. *)
Theorem extractions_agree_on_answer_line (pre line post body : jsstring) :
  pre = [] \/ (exists pre', pre = pre' ++ [LF]) ->
  post = [] \/ (exists post', post = LF :: post') ->
  includes FINAL_ANSWER pre = false ->
  ~ In LF line ->
  trim line = FINAL_ANSWER ++ body ->
  trim body <> [] ->
  forallb (fun c => negb (isLineTerminator c)) (trim body) = true ->
  loopFinalAnswer (pre ++ line ++ post) = Some (trim body)
  /\ parserFinalAnswer (pre ++ line ++ post) = Some (trim body).
Proof.
  intros Hpre Hpost Hinc Hline Htrim Hne Hnolt. split.
  - destruct (pattern_on_answer_line pre line post body Hpre Hpost Hinc Htrim Hne Hnolt)
      as [spaces [Hsp Hm]].
    unfold loopFinalAnswer.
    rewrite (finalAnswerMatch_includes _ _ Hm), Hm. cbn [option_map].
    now rewrite trim_trim_spaces.
  - now apply parser_on_answer_line.
Qed.

(** C2 (witness): a thought line, then an indented answer line with
    trailing blanks, then more text. *)
Lemma extractions_agree_on_answer_line_witness :
  let text :=
    (lit "Thought: I now know" ++ [LF])
    ++ lit "  Final Answer:  345 apples  " ++ (LF :: lit "Thanks") in
  loopFinalAnswer text = Some (lit "345 apples")
  /\ parserFinalAnswer text = Some (lit "345 apples").
Proof.
  apply (extractions_agree_on_answer_line
           (lit "Thought: I now know" ++ [LF])
           (lit "  Final Answer:  345 apples  ")
           (LF :: lit "Thanks")
           (lit "  345 apples")).
  - right. now exists (lit "Thought: I now know").
  - right. now exists (lit "Thanks").
  - reflexivity.
  - vm_compute. intros H.
    repeat (destruct H as [H | H]; [discriminate |]). exact H.
  - reflexivity.
  - discriminate.
  - reflexivity.
Defined.

(** C2 (counterexample): on [Final Answer:] the parser detects a final
    answer (the empty text) and the loop detects none; on
    [The Final Answer: 42] the loop detects [42] and the parser detects
    none; on [Final Answer:] followed by the line [42] both detect one,
    the loop [42] and the parser the empty text; when a [Thought:] line
    quotes the marker before the answer line, the loop yields the quoted
    text and the parser the answer line's; and on an answer with a
    carriage return inside, the loop stops at the carriage return and the
    parser does not. *)
Lemma extractions_disagree :
  parserFinalAnswer (lit "Final Answer:") = Some (lit "")
  /\ loopFinalAnswer (lit "Final Answer:") = None
  /\ loopFinalAnswer (lit "The Final Answer: 42") = Some (lit "42")
  /\ parserFinalAnswer (lit "The Final Answer: 42") = None
  /\ loopFinalAnswer (lines2 (lit "Final Answer:") (lit "42")) = Some (lit "42")
  /\ parserFinalAnswer (lines2 (lit "Final Answer:") (lit "42")) = Some (lit "")
  /\ loopFinalAnswer (lines2 (lit "Thought: Final Answer: 1") (lit "Final Answer: 2"))
     = Some (lit "1")
  /\ parserFinalAnswer (lines2 (lit "Thought: Final Answer: 1") (lit "Final Answer: 2"))
     = Some (lit "2")
  /\ loopFinalAnswer (lit "Final Answer: a" ++ [13%N] ++ lit "b") = Some (lit "a")
  /\ parserFinalAnswer (lit "Final Answer: a" ++ [13%N] ++ lit "b")
     = Some (lit "a" ++ [13%N] ++ lit "b").
Proof.
  vm_compute. repeat split.
Qed.

(* ===================================================================== *)
(** ** Invariants of a turn *)
(* ===================================================================== *)

Section TurnFacts.

Context {W : Type}.
Variable self : ReactAgent.t W.

Import ReactAgent.

Lemma dispatchBlock_not_empty (a i observation : jsstring) :
  dispatchBlock a i observation <> [].
Proof.
  unfold dispatchBlock.
  change (lit "I need to use the ") with (73%N :: lit " need to use the ").
  discriminate.
Qed.

(** After the client's response: the scratchpad grows, unless a tool
    throws a value that cannot be converted to a string; at most one tool
    is called. *)
Lemma act_cases (response scratchpad : jsstring) (m : Machine W) :
  exists m' r,
    act self response scratchpad m = (m', r)
    /\ ((exists e, r = Throw e)
        \/ (exists ext, ext <> [] /\ r = Normal (Next (scratchpad ++ ext))))
    /\ (trace m' = trace m \/ exists a i, trace m' = trace m ++ [EvTool a i]).
Proof.
  assert (Hthought :
    act self response scratchpad m
    = (m, Normal (Next (scratchpad ++ thought (parseAgentResponse response) ++ [LF]))) ->
    exists m' r,
      act self response scratchpad m = (m', r)
      /\ ((exists e, r = Throw e)
          \/ (exists ext, ext <> [] /\ r = Normal (Next (scratchpad ++ ext))))
      /\ (trace m' = trace m \/ exists a i, trace m' = trace m ++ [EvTool a i])).
  { intros E. eexists _, _. split; [exact E |]. split; [|now left].
    right. exists (thought (parseAgentResponse response) ++ [LF]).
    split; [now destruct (thought _) | reflexivity]. }
  destruct (action (parseAgentResponse response)) as [a|] eqn:Ha.
  - destruct (actionInput (parseAgentResponse response)) as [i|] eqn:Hi.
    + destruct a as [|c a].
      * apply Hthought. apply act_thought_only. right. now left.
      * rewrite (act_dispatches self response scratchpad (c :: a) i m Ha)
          by (congruence || exact Hi).
        unfold bind.
        destruct (executeTool_cases self (c :: a) i m) as [m' [r [-> Ht]]].
        assert (Htrace : trace m' = trace m
                         \/ exists a0 i0, trace m' = trace m ++ [EvTool a0 i0]).
        { destruct Ht as [Ht | Ht]; [now left | right; now exists (c :: a), i]. }
        destruct r as [o|e].
        -- eexists _, _. split; [reflexivity |]. split; [|exact Htrace].
           right. exists (dispatchBlock (c :: a) i o).
           split; [apply dispatchBlock_not_empty | reflexivity].
        -- eexists _, _. split; [reflexivity |]. split; [|exact Htrace].
           left. now exists e.
    + apply Hthought. apply act_thought_only. right. now right.
  - apply Hthought. apply act_thought_only. now left.
Qed.

(** One pass: one call of the client, at most one call of a tool; it
    throws, breaks with a trimmed capture, or extends the scratchpad. *)
Lemma pass_cases (input scratchpad : jsstring) (m : Machine W) :
  exists m' r,
    pass self input scratchpad m = (m', r)
    /\ (trace m' = trace m ++ [EvGenerate (createPrompt self input scratchpad)]
        \/ exists a i,
             trace m' = trace m ++ [EvGenerate (createPrompt self input scratchpad);
                                    EvTool a i])
    /\ ((exists e, r = Throw e)
        \/ (exists c, r = Normal (Break (trim c)))
        \/ (exists ext, ext <> [] /\ r = Normal (Next (scratchpad ++ ext)))).
Proof.
  unfold pass, bind, await.
  destruct (generate (llm self) (createPrompt self input scratchpad) (world m))
    as [w' [response|e]].
  - set (m1 := mkMachine w' (trace m ++ [EvGenerate (createPrompt self input scratchpad)])).
    assert (Hact :
      exists m' r,
        act self response scratchpad m1 = (m', r)
        /\ (trace m' = trace m ++ [EvGenerate (createPrompt self input scratchpad)]
            \/ exists a i,
                 trace m' = trace m ++ [EvGenerate (createPrompt self input scratchpad);
                                        EvTool a i])
        /\ ((exists e, r = Throw e)
            \/ (exists c, r = Normal (Break (trim c)))
            \/ (exists ext, ext <> [] /\ r = Normal (Next (scratchpad ++ ext))))).
    { destruct (act_cases response scratchpad m1) as [m' [r [E [Hr Ht]]]].
      exists m', r. split; [exact E |]. split.
      - destruct Ht as [Ht | [a [i Ht]]]; rewrite Ht; cbn [trace m1].
        + now left.
        + right. exists a, i. now rewrite <- app_assoc.
      - destruct Hr as [He | Hext]; [now left | right; now right]. }
    destruct (includes FINAL_ANSWER response); [|exact Hact].
    destruct (finalAnswerMatch response) as [capture|]; [|exact Hact].
    eexists _, _. split; [reflexivity |]. split; [now left |].
    right. left. now exists capture.
  - eexists _, _. split; [reflexivity |]. split; [now left |].
    left. now exists e.
Qed.

Lemma generateCalls_app (t u : list Event) :
  generateCalls (t ++ u) = generateCalls t + generateCalls u.
Proof. unfold generateCalls. now rewrite filter_app, length_app. Qed.

Lemma toolCalls_app (t u : list Event) :
  toolCalls (t ++ u) = toolCalls t ++ toolCalls u.
Proof. unfold toolCalls. apply filter_app. Qed.

(** What the loop keeps, whatever the client and the tools do. *)
Lemma loop_invariant (input : jsstring) (remaining : nat) :
  forall scratchpad m,
  exists m' r,
    loop self remaining input scratchpad m = (m', r)
    /\ generateCalls (trace m') <= generateCalls (trace m) + remaining
    /\ List.length (toolCalls (trace m')) + generateCalls (trace m)
       <= List.length (toolCalls (trace m)) + generateCalls (trace m')
    /\ (forall p, In (EvGenerate p) (trace m') ->
                  In (EvGenerate p) (trace m)
                  \/ exists sp, p = createPrompt self input sp)
    /\ (forall finalAnswer, r = Normal finalAnswer ->
                            finalAnswer = [] \/ exists c, finalAnswer = trim c).
Proof.
  induction remaining as [|n IH]; intros scratchpad m.
  - exists m, (Normal []). repeat split; try lia.
    + intros p Hp. now left.
    + intros fa Hfa. injection Hfa as <-. now left.
  - cbn [loop]. unfold bind at 1.
    destruct (pass_cases input scratchpad m) as [m1 [r1 [E [Ht Hr]]]].
    rewrite E.
    assert (Hg : generateCalls (trace m1) = S (generateCalls (trace m))
                 /\ List.length (toolCalls (trace m1))
                    <= S (List.length (toolCalls (trace m)))
                 /\ (forall p, In (EvGenerate p) (trace m1) ->
                               In (EvGenerate p) (trace m)
                               \/ exists sp, p = createPrompt self input sp)).
    { destruct Ht as [Ht | [a [i Ht]]]; rewrite Ht;
        rewrite generateCalls_app, toolCalls_app, length_app; cbn;
        (split; [lia | split; [lia |]]);
        intros p Hp; apply in_app_or in Hp;
        (destruct Hp as [Hp | Hp]; [now left | right]);
        cbn [In] in Hp.
      - destruct Hp as [Hp | []]. injection Hp as <-. now exists scratchpad.
      - destruct Hp as [Hp | [Hp | []]]; [|discriminate].
        injection Hp as <-. now exists scratchpad. }
    destruct Hg as [Hg [Htl Hp1]].
    destruct Hr as [[e ->] | [[c ->] | [ext [_ ->]]]].
    + exists m1, (Throw e). repeat split; try lia; [exact Hp1 | discriminate].
    + exists m1, (Normal (trim c)). unfold ret.
      repeat split; try lia; [exact Hp1 |].
      intros fa Hfa. injection Hfa as <-. right. now exists c.
    + destruct (IH (scratchpad ++ ext) m1) as [m' [r [E' [H1 [H2 [H3 H4]]]]]].
      exists m', r. rewrite E'. repeat split; try lia; [|exact H4].
      intros p Hp. destruct (H3 p Hp) as [Hin | Hsp]; [now apply Hp1 | now right].
Qed.

(** Along the passes that do not break, the scratchpad and the trace only
    grow. *)
Lemma reaches_grows (input : jsstring) n sp m n' sp' m' :
  Reaches self input n sp m n' sp' m' ->
  n' <= n
  /\ (exists ext, sp' = sp ++ ext /\ n - n' <= List.length ext)
  /\ (exists events, trace m' = trace m ++ events
                     /\ generateCalls events = n - n').
Proof.
  induction 1 as [n sp m | n sp m sp1 m1 n' sp' m' Hpass _ IH].
  - split; [lia |]. split.
    + exists []. rewrite app_nil_r. split; [reflexivity | cbn; lia].
    + exists []. rewrite app_nil_r. split; [reflexivity |]. cbn. lia.
  - destruct IH as [Hle [[ext [-> Hlen]] [events [Ht Hg]]]].
    destruct (pass_cases input sp m) as [m1' [r1 [E [Ht1 Hr]]]].
    rewrite Hpass in E. injection E as <- <-.
    destruct Hr as [[e He] | [[c Hc] | [ext1 [Hne Hext]]]]; try discriminate.
    injection Hext as ->.
    split; [lia |]. split.
    + exists (ext1 ++ ext). rewrite app_assoc. split; [reflexivity |].
      rewrite length_app. destruct ext1; [congruence | cbn [List.length]; lia].
    + destruct Ht1 as [Ht1 | [a [i Ht1]]]; rewrite Ht1 in Ht.
      * exists ([EvGenerate (createPrompt self input sp)] ++ events).
        rewrite app_assoc. split; [exact Ht |].
        rewrite generateCalls_app, Hg.
        change (generateCalls [EvGenerate (createPrompt self input sp)]) with 1.
        lia.
      * exists ([EvGenerate (createPrompt self input sp); EvTool a i] ++ events).
        rewrite app_assoc. split; [exact Ht |].
        rewrite generateCalls_app, Hg.
        change (generateCalls [EvGenerate (createPrompt self input sp); EvTool a i])
          with 1.
        lia.
Qed.

End TurnFacts.

Lemma trim_idem (s : jsstring) : trim (trim s) = trim s.
Proof.
  rewrite <- (app_nil_r (trim s)) at 1. now apply trim_trim_spaces.
Qed.

Lemma includes_self (s : jsstring) : includes s s = true.
Proof. apply includes_iff. exists [], []. now rewrite app_nil_r. Qed.

Lemma join_includes (sep x : jsstring) (parts : list jsstring) :
  In x parts -> includes x (join sep parts) = true.
Proof.
  induction parts as [|p ps IH]; intros H; [destruct H |].
  destruct ps as [|q ps].
  - destruct H as [<- | []]. apply includes_self.
  - change (join sep (p :: q :: ps)) with (p ++ sep ++ join sep (q :: ps)).
    destruct H as [<- | H].
    + apply includes_iff. now exists [], (sep ++ join sep (q :: ps)).
    + apply includes_iff.
      apply IH in H. apply includes_iff in H. destruct H as [a [b Hab]].
      exists (p ++ sep ++ a), b. rewrite Hab. now rewrite <- !app_assoc.
Qed.

(** X1: in one turn the completion client is called at most
    [maxIterations] times and a tool at most once per call of the client,
    whatever the client answers or throws and whatever the tools do. *)
Theorem invoke_calls_bounded {W : Type} (self : ReactAgent.t W)
    (input : jsstring) (w : W) :
  let t := trace (fst (ReactAgent.runInvoke self input w)) in
  generateCalls t <= ReactAgent.maxIterations self
  /\ List.length (toolCalls t) <= generateCalls t.
Proof.
  intros t. subst t. unfold ReactAgent.runInvoke, ReactAgent.invoke, bind.
  destruct (loop_invariant self input (ReactAgent.maxIterations self) (lit "")
              (mkMachine w [])) as [m' [r [E [H1 [H2 _]]]]].
  rewrite E. cbn [trace generateCalls toolCalls filter List.length] in H1, H2.
  destruct r as [fa|e]; [destruct (truthy fa) |]; cbn [fst ret]; lia.
Qed.

(** X2: the output of a turn is never the empty string and never has
    white space at either end: it is the exhaustion message or a trimmed,
    non-empty capture. *)
Theorem invoke_output_trimmed {W : Type} (self : ReactAgent.t W)
    (input output : jsstring) (w : W) (m' : Machine W) :
  ReactAgent.runInvoke self input w = (m', Normal output) ->
  output <> [] /\ trim output = output.
Proof.
  unfold ReactAgent.runInvoke, ReactAgent.invoke, bind.
  destruct (loop_invariant self input (ReactAgent.maxIterations self) (lit "")
              (mkMachine w [])) as [m1 [r [E [_ [_ [_ Hfa]]]]]].
  rewrite E. destruct r as [fa|e]; [|discriminate].
  destruct (Hfa fa eq_refl) as [-> | [c ->]].
  - cbn [truthy ret]. intros H. injection H as _ <-.
    split; [discriminate | vm_compute; reflexivity].
  - destruct (trim c) as [|x r] eqn:Ec; cbn [truthy ret]; intros H;
      injection H as _ <-.
    + split; [discriminate | vm_compute; reflexivity].
    + split; [discriminate |]. rewrite <- Ec. apply trim_idem.
Qed.

(** X2 (witness): an answer given with blanks around it. *)
Lemma invoke_output_trimmed_witness :
  lit "twelve" <> [] /\ trim (lit "twelve") = lit "twelve".
Proof.
  apply (invoke_output_trimmed (demoAgent (lit "Final Answer:   twelve  "))
           (lit "How many?") (lit "twelve") tt
           (mkMachine tt
              [EvGenerate
                 (ReactAgent.createPrompt (demoAgent (lit "")) (lit "How many?") [])])).
  vm_compute. reflexivity.
Defined.

(** X3: an error thrown by the completion client in any iteration leaves
    [invoke] as it is: the turn ends with that error, no output and no
    exhaustion message, and nothing is called after the failed call. *)
Theorem client_failure_ends_turn {W : Type} (self : ReactAgent.t W)
    (input scratchpad : jsstring) (w w' : W) (m : Machine W) (e : JsThrown)
    (remaining : nat) :
  let prompt := ReactAgent.createPrompt self input scratchpad in
  Reaches self input (ReactAgent.maxIterations self) [] (mkMachine w [])
          (S remaining) scratchpad m ->
  generate (ReactAgent.llm self) prompt (world m) = (w', Throw e) ->
  ReactAgent.runInvoke self input w
  = (mkMachine w' (trace m ++ [EvGenerate prompt]), Throw e).
Proof.
  intros prompt Hreach Hgen.
  unfold ReactAgent.runInvoke, ReactAgent.invoke, bind.
  change (lit "") with (@nil char).
  rewrite (loop_reaches self input _ _ _ _ _ _ Hreach).
  cbn [ReactAgent.loop]. unfold bind, ReactAgent.pass, bind, await.
  fold prompt. rewrite Hgen. reflexivity.
Qed.

(** X3 (witness): the service answers once, then fails. *)
Lemma client_failure_ends_turn_witness :
  ReactAgent.runInvoke scriptedAgent (lit "q") [lit "Thought: hm"]
  = (mkMachine []
       [EvGenerate (ReactAgent.createPrompt scriptedAgent (lit "q") []);
        EvGenerate (ReactAgent.createPrompt scriptedAgent (lit "q") (lit "hm" ++ [LF]))],
     Throw (ErrorObject (lit "Error") (lit "HTTP error! status: 500"))).
Proof.
  refine (client_failure_ends_turn scriptedAgent (lit "q") (lit "hm" ++ [LF])
            [lit "Thought: hm"] []
            (mkMachine [] [EvGenerate (ReactAgent.createPrompt scriptedAgent (lit "q") [])])
            (ErrorObject (lit "Error") (lit "HTTP error! status: 500")) 1 _ _).
  - eapply reaches_next; [|apply reaches_here]. vm_compute. reflexivity.
  - reflexivity.
Defined.

(** X4: when the pattern matches but the captured text is blank, the loop
    still breaks in that iteration and the turn returns the exhaustion
    message at once, without using the iterations that are left. *)
Theorem blank_final_answer_reports_exhaustion {W : Type} (self : ReactAgent.t W)
    (input scratchpad response capture : jsstring) (w w' : W) (m : Machine W)
    (remaining : nat) :
  let prompt := ReactAgent.createPrompt self input scratchpad in
  Reaches self input (ReactAgent.maxIterations self) [] (mkMachine w [])
          (S remaining) scratchpad m ->
  generate (ReactAgent.llm self) prompt (world m) = (w', Normal response) ->
  finalAnswerMatch response = Some capture ->
  trim capture = [] ->
  ReactAgent.runInvoke self input w
  = (mkMachine w' (trace m ++ [EvGenerate prompt]),
     Normal (lit "I couldn't complete the task within the maximum iterations.")).
Proof.
  intros prompt Hreach Hgen Hm Hblank.
  unfold ReactAgent.runInvoke, ReactAgent.invoke, bind.
  change (lit "") with (@nil char).
  rewrite (loop_reaches self input _ _ _ _ _ _ Hreach).
  cbn [ReactAgent.loop]. unfold bind.
  rewrite (pass_break self input scratchpad response capture m w' Hgen Hm).
  unfold ret. rewrite Hblank. reflexivity.
Qed.

(** X4 (witness): the marker followed by one blank, in the first of three
    iterations. *)
Lemma blank_final_answer_reports_exhaustion_witness :
  ReactAgent.runInvoke (demoAgent (lit "Final Answer: ")) (lit "q") tt
  = (mkMachine tt
       [EvGenerate (ReactAgent.createPrompt (demoAgent (lit "Final Answer: ")) (lit "q") [])],
     Normal (lit "I couldn't complete the task within the maximum iterations.")).
Proof.
  refine (blank_final_answer_reports_exhaustion (demoAgent (lit "Final Answer: "))
            (lit "q") [] (lit "Final Answer: ") (lit " ") tt tt (mkMachine tt []) 2 _ _ _ _).
  - apply reaches_here.
  - reflexivity.
  - vm_compute. reflexivity.
  - vm_compute. reflexivity.
Defined.

(** X5: from one iteration to a later one of the same turn the scratchpad
    is only appended to, by at least one character per iteration, and the
    trace is only appended to, with exactly one call of the client per
    iteration. *)
Theorem scratchpad_append_only {W : Type} (self : ReactAgent.t W)
    (input : jsstring) (n n' : nat) (sp sp' : jsstring) (m m' : Machine W) :
  Reaches self input n sp m n' sp' m' ->
  n' <= n
  /\ (exists ext, sp' = sp ++ ext /\ n - n' <= List.length ext)
  /\ (exists events, trace m' = trace m ++ events
                     /\ generateCalls events = n - n').
Proof. apply reaches_grows. Qed.

(** X5 (witness): after a thought-only first iteration. *)
Lemma scratchpad_append_only_witness :
  1 <= 3
  /\ (exists ext,
        (lit "hm" ++ [LF]) ++ lit "hm" ++ [LF] = [] ++ ext
        /\ 3 - 1 <= List.length ext)
  /\ (exists events,
        [EvGenerate (ReactAgent.createPrompt (demoAgent (lit "Thought: hm")) (lit "q") []);
         EvGenerate (ReactAgent.createPrompt (demoAgent (lit "Thought: hm")) (lit "q")
                       (lit "hm" ++ [LF]))]
        = [] ++ events
        /\ generateCalls events = 3 - 1).
Proof.
  apply (scratchpad_append_only (demoAgent (lit "Thought: hm")) (lit "q") 3 1
           [] ((lit "hm" ++ [LF]) ++ lit "hm" ++ [LF]) (mkMachine tt [])
           (mkMachine tt
              [EvGenerate (ReactAgent.createPrompt (demoAgent (lit "Thought: hm")) (lit "q") []);
               EvGenerate (ReactAgent.createPrompt (demoAgent (lit "Thought: hm")) (lit "q")
                             (lit "hm" ++ [LF]))])).
  eapply reaches_next; [vm_compute; reflexivity |].
  eapply reaches_next; [vm_compute; reflexivity |].
  apply reaches_here.
Defined.

(** X6: every prompt sent to the completion client during a turn is the
    prompt template filled with the question of that turn and some
    scratchpad, and it contains the line [Question: <input>]. *)
Theorem prompts_carry_question {W : Type} (self : ReactAgent.t W)
    (input p : jsstring) (w : W) :
  In (EvGenerate p) (trace (fst (ReactAgent.runInvoke self input w))) ->
  (exists scratchpad, p = ReactAgent.createPrompt self input scratchpad)
  /\ includes (lit "Question: " ++ input) p = true.
Proof.
  unfold ReactAgent.runInvoke, ReactAgent.invoke, bind.
  destruct (loop_invariant self input (ReactAgent.maxIterations self) (lit "")
              (mkMachine w [])) as [m' [r [E [_ [_ [Hp _]]]]]].
  rewrite E. intros Hin.
  assert (Hin' : In (EvGenerate p) (trace m')).
  { destruct r as [fa|e]; [destruct (truthy fa) |]; exact Hin. }
  destruct (Hp p Hin') as [[] | [sp ->]].
  split; [now exists sp |].
  unfold ReactAgent.createPrompt. apply join_includes.
  do 17 right. now left.
Qed.

(** X6 (witness): the second prompt of a turn. *)
Lemma prompts_carry_question_witness :
  includes (lit "Question: " ++ lit "q")
    (ReactAgent.createPrompt (demoAgent (lit "Thought: hm")) (lit "q") (lit "hm" ++ [LF]))
  = true.
Proof.
  apply (prompts_carry_question (demoAgent (lit "Thought: hm")) (lit "q") _ tt).
  vm_compute. right. left. reflexivity.
Defined.

(* ===================================================================== *)
(** ** Resolution of tools *)
(* ===================================================================== *)

Lemma find_first {A} (f : A -> bool) (before after : list A) (x : A) :
  (forall y, In y before -> f y = false) -> f x = true ->
  find f (before ++ x :: after) = Some x.
Proof.
  intros Hb Hx. induction before as [|y before IH]; cbn [app find].
  - now rewrite Hx.
  - rewrite (Hb y) by now left. apply IH. intros z Hz. apply Hb. now right.
Qed.

(** X7: a tool is resolved to the first registered tool of that name:
    its function alone is called, once, with the given input; a tool
    registered later under the same name is never called.  What the
    function returns is returned as it is; a thrown value that a template
    literal can convert becomes the observation
    [Error executing tool '<name>': <value>]; a thrown value that cannot
    be converted to a string (a Symbol, say) makes the handler itself
    throw (a TypeError for a Symbol), and that error leaves
    [executeTool]. *)
Theorem executeTool_calls_first_registered {W : Type} (self : ReactAgent.t W)
    (before after : list (Tool W)) (tool : Tool W) (input : jsstring)
    (m : Machine W) :
  ReactAgent.tools self = before ++ tool :: after ->
  (forall t, In t before -> name t <> name tool) ->
  ReactAgent.executeTool self (name tool) input m
  = (mkMachine (fst (func tool input (world m)))
       (trace m ++ [EvTool (name tool) input]),
     match snd (func tool input (world m)) with
     | Returned observation => Normal observation
     | Thrown (Convertible e) =>
         Normal (lit "Error executing tool '" ++ name tool ++ lit "': "
                 ++ thrownToString e)
     | Thrown (Unconvertible raised) => Throw raised
     end).
Proof.
  intros Htools Hbefore. apply executeTool_found. rewrite Htools.
  apply find_first.
  - intros t Ht. destruct (JS.eqb (name t) (name tool)) eqn:E; [|reflexivity].
    apply eqb_iff in E. now apply Hbefore in Ht.
  - now apply eqb_iff.
Qed.

(** X7 (witness): a registry in which a second [boom] is registered
    after the failing one. *)
Lemma executeTool_calls_first_registered_witness :
  ReactAgent.executeTool
    (ReactAgent.mk (constClient (lit ""))
       (tools demoClock referenceEngine
        ++ [failingTool; mkTool (lit "boom") (lit "late") (fun i w => (w, Returned i))])
       3 true)
    (lit "boom") (lit "x") (mkMachine tt [])
  = (mkMachine tt [EvTool (lit "boom") (lit "x")],
     Normal (lit "Error executing tool 'boom': Error: kaput")).
Proof.
  apply (executeTool_calls_first_registered
           (ReactAgent.mk (constClient (lit ""))
              (tools demoClock referenceEngine
               ++ [failingTool;
                   mkTool (lit "boom") (lit "late") (fun i w => (w, Returned i))])
              3 true)
           (tools demoClock referenceEngine)
           [mkTool (lit "boom") (lit "late") (fun i w => (w, Returned i))]
           failingTool (lit "x") (mkMachine tt [])).
  - reflexivity.
  - intros t Ht. cbn [tools In] in Ht.
    destruct Ht as [<- | [<- | [<- | []]]]; discriminate.
Defined.

(* ===================================================================== *)
(** ** More on the parser *)
(* ===================================================================== *)

Section ParserMore.

Import ReactAgent.

Lemma dropWhile_app_stop (f : char -> bool) (a r : jsstring) (d : char) :
  f d = false -> dropWhile f (a ++ d :: r) = dropWhile f a ++ d :: r.
Proof.
  intros Hd. induction a as [|x a IH]; cbn [app dropWhile].
  - now rewrite Hd.
  - destruct (f x); [exact IH | reflexivity].
Qed.

Lemma dropWhile_nil_all (f : char -> bool) (s : jsstring) :
  dropWhile f s = [] -> forallb f s = true.
Proof.
  induction s as [|x s IH]; cbn [dropWhile forallb]; [reflexivity |].
  destruct (f x); [exact IH | discriminate].
Qed.

(** A prefix that ends with a character that is not a space survives
    [trimEnd]. *)
Lemma trimEnd_keeps_prefix (q t : jsstring) (d : char) :
  isSpace d = false -> trimEnd ((q ++ [d]) ++ t) = (q ++ [d]) ++ trimEnd t.
Proof.
  intros Hd. unfold trimEnd.
  rewrite !rev_app_distr. cbn [rev app].
  rewrite (dropWhile_app_stop isSpace (rev t) (rev q) d Hd).
  rewrite rev_app_distr. cbn [rev]. now rewrite rev_involutive.
Qed.

Lemma trim_trimEnd (t : jsstring) : trim (trimEnd t) = trim t.
Proof.
  destruct (trimEnd_split t) as [w [Hw Hsp]].
  unfold trimEnd in *.
  destruct (dropWhile isSpace (rev t)) as [|d r] eqn:E.
  - cbn [rev]. symmetry. apply trim_all_spaces.
    rewrite <- forallb_rev_chars. now apply dropWhile_nil_all.
  - pose proof (dropWhile_head isSpace (rev t) r d E) as Hd.
    cbn [rev] in Hw |- *. rewrite Hw.
    unfold trim, trimStart.
    rewrite <- app_assoc. cbn [app].
    rewrite (dropWhile_app_stop isSpace (rev r) w d Hd).
    rewrite (dropWhile_app_stop isSpace (rev r) [] d Hd).
    change (dropWhile isSpace (rev r) ++ d :: w)
      with (dropWhile isSpace (rev r) ++ [d] ++ w).
    rewrite app_assoc.
    now rewrite (trimEnd_app_spaces (dropWhile isSpace (rev r) ++ [d]) w Hsp).
Qed.

(** The trimmed form of a line that begins with one of the prefixes. *)
Lemma trim_prefixed (q t : jsstring) (c d : char) :
  isSpace c = false -> isSpace d = false ->
  trim ((c :: q ++ [d]) ++ t) = (c :: q ++ [d]) ++ trimEnd t.
Proof.
  intros Hc Hd. unfold trim, trimStart. cbn [app].
  rewrite dropWhile_stop by exact Hc.
  change (c :: (q ++ [d]) ++ t) with (((c :: q) ++ [d]) ++ t).
  now rewrite trimEnd_keeps_prefix.
Qed.

Lemma trim_thought (t : jsstring) : trim (THOUGHT ++ t) = THOUGHT ++ trimEnd t.
Proof. exact (trim_prefixed (lit "hought") t 84%N 58%N eq_refl eq_refl). Qed.

Lemma trim_action (t : jsstring) : trim (ACTION ++ t) = ACTION ++ trimEnd t.
Proof. exact (trim_prefixed (lit "ction") t 65%N 58%N eq_refl eq_refl). Qed.

Lemma trim_action_input (t : jsstring) :
  trim (ACTION_INPUT ++ t) = ACTION_INPUT ++ trimEnd t.
Proof. exact (trim_prefixed (lit "ction Input") t 65%N 58%N eq_refl eq_refl). Qed.

Lemma no_LF_app (p t : jsstring) : ~ In LF p -> ~ In LF t -> ~ In LF (p ++ t).
Proof. intros Hp Ht H. apply in_app_or in H. tauto. Qed.

Lemma no_LF_in_prefixes :
  ~ In LF THOUGHT /\ ~ In LF ACTION /\ ~ In LF ACTION_INPUT.
Proof.
  repeat split; vm_compute; intros H;
    repeat (destruct H as [H | H]; [discriminate |]); exact H.
Qed.

(** The observation is that of the first line beginning with the marker. *)
Lemma scanLines_first_final (lines : list jsstring) :
  forall step,
  observation (scanLines lines step)
  = match find (startsWith FINAL_ANSWER) lines with
    | Some l => Some (trim (substring 13 l))
    | None => observation step
    end.
Proof.
  induction lines as [|l ls IH]; intros step; [reflexivity |].
  cbn [scanLines find].
  destruct (prefixes_exclusive l) as [HT [HA HI]].
  destruct (startsWith THOUGHT l) eqn:ET.
  - destruct (HT eq_refl) as [_ [_ EF]]. rewrite EF. now rewrite IH.
  - destruct (startsWith ACTION l) eqn:EA.
    + destruct (HA eq_refl) as [_ EF]. rewrite EF. now rewrite IH.
    + destruct (startsWith ACTION_INPUT l) eqn:EI.
      * rewrite (HI eq_refl). now rewrite IH.
      * destruct (startsWith FINAL_ANSWER l); [reflexivity | apply IH].
Qed.

(** The scan stops at the first line beginning with the marker. *)
Lemma scanLines_cut (X Y : list jsstring) (fa : jsstring) :
  startsWith FINAL_ANSWER fa = true ->
  forall step, scanLines (X ++ fa :: Y) step = scanLines (X ++ [fa]) step.
Proof.
  intros Hfa. induction X as [|x X IH]; intros step.
  - cbn [app scanLines]. rewrite Hfa.
    destruct (prefixes_exclusive fa) as [HT [HA HI]].
    destruct (startsWith THOUGHT fa); [destruct (HT eq_refl) as [_ [_ E]]; congruence |].
    destruct (startsWith ACTION fa); [destruct (HA eq_refl) as [_ E]; congruence |].
    destruct (startsWith ACTION_INPUT fa); [specialize (HI eq_refl); congruence |].
    reflexivity.
  - cbn [app scanLines].
    destruct (startsWith THOUGHT x); [apply IH |].
    destruct (startsWith ACTION x); [apply IH |].
    destruct (startsWith ACTION_INPUT x); [apply IH |].
    destruct (startsWith FINAL_ANSWER x); [reflexivity | apply IH].
Qed.

Lemma responseLines_app (a b : jsstring) :
  responseLines (a ++ LF :: b) = responseLines a ++ responseLines b.
Proof.
  unfold responseLines. now rewrite split_app, map_app, filter_app.
Qed.

Lemma responseLines_line (line : jsstring) :
  ~ In LF line -> truthy (trim line) = true -> responseLines line = [trim line].
Proof.
  intros Hl Ht. unfold responseLines. rewrite split_nosep by exact Hl.
  cbn [List.map filter]. now rewrite Ht.
Qed.

Lemma split_no_sep (sep : char) (s l : jsstring) :
  In l (split sep s) -> ~ In sep l.
Proof.
  revert l. induction s as [|c s IH]; intros l; cbn [split].
  - intros [<- | []] [].
  - destruct (N.eqb_spec c sep) as [->|Hne].
    + intros [<- | H]; [intros [] | now apply IH].
    + destruct (split sep s) as [|l0 ls] eqn:E; cbn [In].
      * intros [<- | []] [H | []]. congruence.
      * intros [<- | H].
        -- intros [Hc | Hin]; [congruence |].
           apply (IH l0); [now left | exact Hin].
        -- apply IH. now right.
Qed.

Lemma split_join (ls : list jsstring) :
  ls <> [] -> (forall l, In l ls -> ~ In LF l) ->
  split LF (join [LF] ls) = ls.
Proof.
  induction ls as [|p ps IH]; intros Hne Hls; [congruence |].
  destruct ps as [|q ps].
  - cbn [join]. apply split_nosep. apply Hls. now left.
  - change (join [LF] (p :: q :: ps)) with (p ++ LF :: join [LF] (q :: ps)).
    rewrite split_app, split_nosep by (apply Hls; now left).
    rewrite IH; [reflexivity | discriminate |].
    intros l Hl. apply Hls. now right.
Qed.

Lemma responseLines_normal (r : jsstring) :
  responseLines (join [LF] (responseLines r)) = responseLines r.
Proof.
  destruct (responseLines r) as [|l0 ls0] eqn:E; [reflexivity |].
  rewrite <- E.
  assert (Hlines : forall l, In l (responseLines r) ->
                             ~ In LF l /\ trim l = l /\ truthy l = true).
  { intros l Hl. unfold responseLines in Hl. apply filter_In in Hl.
    destruct Hl as [Hl Ht]. apply in_map_iff in Hl. destruct Hl as [x [<- Hx]].
    repeat split; [| apply trim_idem | exact Ht].
    intros Hin. apply (split_no_sep LF r x Hx).
    destruct (trim_split x) as [lead [trail [Hs _]]]. rewrite Hs.
    apply in_or_app. right. apply in_or_app. now left. }
  unfold responseLines at 1.
  rewrite split_join; [| rewrite E; discriminate | intros l Hl; now apply Hlines].
  revert Hlines. generalize (responseLines r). intros ls Hls.
  induction ls as [|l ls IH]; [reflexivity |].
  cbn [List.map filter].
  destruct (Hls l (or_introl eq_refl)) as [_ [-> ->]].
  f_equal. apply IH. intros x Hx. apply Hls. now right.
Qed.

End ParserMore.

(** X8: a step written as the three lines [Thought:<t>], [Action:<a>],
    [Action Input:<i>], with any text free of line feeds after each
    prefix, is read back by the parser as thought [t], action [a] and
    action input [i], each trimmed, and no observation. *)
Theorem parse_formatted_step (t a i : jsstring) :
  ~ In LF t -> ~ In LF a -> ~ In LF i ->
  ReactAgent.parseAgentResponse
    ((THOUGHT ++ t) ++ LF :: (ACTION ++ a) ++ LF :: (ACTION_INPUT ++ i))
  = mkStep (trim t) (Some (trim a)) (Some (trim i)) None.
Proof.
  intros Ht Ha Hi.
  destruct no_LF_in_prefixes as [HT [HA HI]].
  unfold ReactAgent.parseAgentResponse.
  rewrite !responseLines_app.
  rewrite !responseLines_line;
    try (apply no_LF_app; assumption);
    try (rewrite ?trim_thought, ?trim_action, ?trim_action_input; reflexivity).
  rewrite trim_thought, trim_action, trim_action_input.
  cbn [app ReactAgent.scanLines].
  rewrite (startsWith_app THOUGHT).
  change (startsWith THOUGHT (ACTION ++ trimEnd a)) with false.
  rewrite (startsWith_app ACTION).
  change (startsWith THOUGHT (ACTION_INPUT ++ trimEnd i)) with false.
  change (startsWith ACTION (ACTION_INPUT ++ trimEnd i)) with false.
  rewrite (startsWith_app ACTION_INPUT). cbv iota.
  change (substring 8 (THOUGHT ++ trimEnd t)) with (trimEnd t).
  change (substring 7 (ACTION ++ trimEnd a)) with (trimEnd a).
  change (substring 13 (ACTION_INPUT ++ trimEnd i)) with (trimEnd i).
  now rewrite !trim_trimEnd.
Qed.

(** X8 (witness): the step of the specification's example, indented
    values included. *)
Lemma parse_formatted_step_witness :
  ReactAgent.parseAgentResponse
    ((THOUGHT ++ lit " need calculator ") ++ LF :: (ACTION ++ lit " calculator")
     ++ LF :: (ACTION_INPUT ++ lit "  15 * 23"))
  = mkStep (trim (lit " need calculator ")) (Some (trim (lit " calculator")))
      (Some (trim (lit "  15 * 23"))) None.
Proof.
  apply parse_formatted_step; vm_compute; intros H;
    repeat (destruct H as [H | H]; [discriminate |]); exact H.
Defined.

(** X9: the parser does not read past the first line that begins with
    [Final Answer:]: whatever text follows that line, the parsed step is
    the same as for the text cut after it. *)
Theorem parse_ignores_text_after_final_answer (pre line post : jsstring) :
  pre = [] \/ (exists pre', pre = pre' ++ [LF]) ->
  ~ In LF line ->
  startsWith FINAL_ANSWER (trim line) = true ->
  ReactAgent.parseAgentResponse (pre ++ line ++ LF :: post)
  = ReactAgent.parseAgentResponse (pre ++ line).
Proof.
  intros Hpre Hline Hfa.
  assert (Ht : truthy (trim line) = true).
  { apply startsWith_iff in Hfa. destruct Hfa as [r ->]. reflexivity. }
  unfold ReactAgent.parseAgentResponse.
  rewrite app_assoc, responseLines_app.
  assert (Hl : exists X, ReactAgent.responseLines (pre ++ line) = X ++ [trim line]).
  { destruct Hpre as [-> | [pre' ->]].
    - exists []. now apply responseLines_line.
    - exists (ReactAgent.responseLines pre'). rewrite <- app_assoc. cbn [app].
      rewrite responseLines_app. now rewrite (responseLines_line line Hline Ht). }
  destruct Hl as [X ->]. rewrite <- app_assoc. cbn [app].
  now apply scanLines_cut.
Qed.

(** X9 (witness): an answer followed by two more lines. *)
Lemma parse_ignores_text_after_final_answer_witness :
  ReactAgent.parseAgentResponse
    ((lit "Thought: done" ++ [LF]) ++ lit " Final Answer: 7 "
     ++ LF :: lines2 (lit "Thought: or not") (lit "Action: calculator"))
  = ReactAgent.parseAgentResponse
      ((lit "Thought: done" ++ [LF]) ++ lit " Final Answer: 7 ").
Proof.
  apply parse_ignores_text_after_final_answer.
  - right. now exists (lit "Thought: done").
  - vm_compute. intros H.
    repeat (destruct H as [H | H]; [discriminate |]). exact H.
  - reflexivity.
Defined.

(** X10: for every text, the observation of the parsed step is the text
    after the marker on the first trimmed non-empty line that begins with
    [Final Answer:], trimmed, and it is absent exactly when no such line
    exists; lines with other prefixes before it do not matter. *)
Theorem parser_final_answer_first_line (response : jsstring) :
  parserFinalAnswer response
  = match find (startsWith FINAL_ANSWER) (ReactAgent.responseLines response) with
    | Some l => Some (trim (substring 13 l))
    | None => None
    end.
Proof.
  unfold parserFinalAnswer, ReactAgent.parseAgentResponse.
  now rewrite scanLines_first_final.
Qed.

(** X11: parsing does not depend on indentation, trailing blanks or blank
    lines: the text rebuilt from the trimmed non-empty lines, one per
    line, parses to the same step. *)
Theorem parse_normal_form (response : jsstring) :
  ReactAgent.parseAgentResponse (join [LF] (ReactAgent.responseLines response))
  = ReactAgent.parseAgentResponse response.
Proof.
  unfold ReactAgent.parseAgentResponse. now rewrite responseLines_normal.
Qed.

(* ===================================================================== *)
(** ** More on the calculator *)
(* ===================================================================== *)

Section CalculatorMore.

Local Open Scope N_scope.

Lemma trim_drop_lead (lead x : jsstring) :
  forallb isSpace lead = true -> trim (lead ++ x) = trim x.
Proof.
  intros H. unfold trim, trimStart. now rewrite dropWhile_app_all.
Qed.

Lemma trim_padded (ws e ws' : jsstring) :
  forallb isSpace ws = true -> forallb isSpace ws' = true ->
  trim (ws ++ e ++ ws') = trim e.
Proof.
  intros Hws Hws'. rewrite trim_drop_lead by exact Hws.
  destruct (trim_split e) as [lead [trail [He [Hlead Htrail]]]].
  rewrite He at 1. rewrite <- !app_assoc.
  rewrite trim_drop_lead by exact Hlead.
  apply trim_trim_spaces. now rewrite forallb_app, Htrail, Hws'.
Qed.

(** The allowed characters by their codes: the space, [( ) * +], and
    [- . /] with the digits. *)
Lemma allowed_is_arithmetic (c : char) :
  has allowedChars c = true ->
  c = 32 \/ (40 <= c /\ c <= 43) \/ (45 <= c /\ c <= 57).
Proof.
  unfold has. change allowedChars
    with [48; 49; 50; 51; 52; 53; 54; 55; 56; 57; 43; 45; 42; 47; 46; 40; 41; 32].
  cbn [existsb]. intros H.
  repeat (apply orb_true_iff in H; destruct H as [H | H];
          [apply N.eqb_eq in H; lia |]).
  discriminate.
Qed.

Lemma has_app (a b : jsstring) (c : char) : has (a ++ b) c = has a c || has b c.
Proof. unfold has. apply existsb_app. Qed.

End CalculatorMore.

(** X12: white space around the expression never changes the result of
    the calculator. *)
Theorem calculator_ignores_padding (engine : jsstring -> Completion jsstring)
    (ws expression ws' : jsstring) :
  forallb isSpace ws = true -> forallb isSpace ws' = true ->
  simpleCalculator engine (ws ++ expression ++ ws')
  = simpleCalculator engine expression.
Proof.
  intros Hws Hws'. unfold simpleCalculator. now rewrite trim_padded.
Qed.

(** X12 (witness): a tab before and a line feed after [6 * 7]. *)
Lemma calculator_ignores_padding_witness :
  simpleCalculator referenceEngine ([9%N] ++ lit "6 * 7" ++ [LF])
  = simpleCalculator referenceEngine (lit "6 * 7").
Proof.
  apply calculator_ignores_padding; reflexivity.
Defined.

(** X13: the engine is only ever handed ["use strict"; return (<e>)] with
    [<e>] made of the space, [( ) * + - . /] and digits: two engines that
    agree on those function bodies give the same calculator on every
    input, so no letter, quote or other character of the input reaches
    the [Function] constructor. *)
Theorem calculator_evaluates_only_arithmetic_text
    (engine1 engine2 : jsstring -> Completion jsstring) :
  (forall e,
      (forall c, In c e ->
                 c = 32%N \/ (40 <= c /\ c <= 43)%N \/ (45 <= c /\ c <= 57)%N) ->
      engine1 (functionBody e) = engine2 (functionBody e)) ->
  forall expression,
    simpleCalculator engine1 expression = simpleCalculator engine2 expression.
Proof.
  intros Hagree expression. unfold simpleCalculator.
  destruct (forallb (has allowedChars) (trim expression)) eqn:E; [|reflexivity].
  rewrite Hagree; [reflexivity |].
  intros c Hc. apply allowed_is_arithmetic.
  rewrite forallb_forall in E. now apply E.
Qed.

(** X13 (witness): an engine that would answer differently on a body
    with the letter [a] is never told apart by the calculator. *)
Lemma calculator_evaluates_only_arithmetic_text_witness :
  simpleCalculator referenceEngine (lit "alert(1) + 2")
  = simpleCalculator pickyEngine (lit "alert(1) + 2")
  /\ simpleCalculator referenceEngine (lit "(1 + 2) * 3")
     = simpleCalculator pickyEngine (lit "(1 + 2) * 3").
Proof.
  assert (H : forall e,
             (forall c, In c e ->
                        c = 32%N \/ (40 <= c /\ c <= 43)%N \/ (45 <= c /\ c <= 57)%N) ->
             referenceEngine (functionBody e) = pickyEngine (functionBody e)).
  { intros e He. unfold pickyEngine.
    replace (has (functionBody e) 97%N) with false; [reflexivity |].
    assert (Hf : has e 97%N = false).
    { apply not_true_is_false. intros Hex.
      apply existsb_exists in Hex. destruct Hex as [c [Hc Heq]].
      apply N.eqb_eq in Heq. subst c. specialize (He _ Hc). lia. }
    unfold functionBody. rewrite !has_app, Hf. reflexivity. }
  split; apply (calculator_evaluates_only_arithmetic_text referenceEngine pickyEngine H).
Defined.

(* ===================================================================== *)
(** ** The HTTP client and the chat shell *)
(* ===================================================================== *)

(** X14: [generate] returns a text only when the one request it sends, a
    POST of the model, the prompt and the temperature to
    [<baseUrl>/api/generate] without streaming, is answered with an OK
    status and a body that can be read: the text is the [response] field
    of that body; a reply that is not OK never yields a text. *)
Theorem generate_returns_only_ok_body {W Num : Type}
    (fetch : Http.Request Num -> Eff W (Http.Response W))
    (self : Ollama.t Num) (prompt text : jsstring) (w w' : W) :
  Ollama.generate fetch self prompt w = (w', Normal text) ->
  exists reply w1 data,
    fetch (Http.mkRequest (Ollama.baseUrl self ++ lit "/api/generate") (lit "POST")
             (lit "application/json")
             (OllamaGenerateRequest.mk (Ollama.model self) prompt false
                (Ollama.temperature self))) w
    = (w1, Normal reply)
    /\ Http.ok reply = true
    /\ Http.json reply w1 = (w', Normal data)
    /\ OllamaGenerateResponse.response data = text.
Proof.
  unfold Ollama.generate, tryCatchE, bindE, throwE, retE.
  destruct (fetch _ w) as [w1 [reply|e]]; [|discriminate].
  destruct (Http.ok reply) eqn:Hok; cbn [negb]; [|discriminate].
  destruct (Http.json reply w1) as [w2 [data|e]] eqn:Hjson; [|discriminate].
  intros H. injection H as <- <-.
  now exists reply, w1, data.
Qed.

(** X14 (witness): a reply with status 200. *)
Lemma generate_returns_only_ok_body_witness :
  exists reply w1 data,
    scriptedFetch
      (Http.mkRequest (lit "http://localhost:11434" ++ lit "/api/generate") (lit "POST")
         (lit "application/json")
         (OllamaGenerateRequest.mk (lit "llama3.1:8b") (lit "Hello") false (lit "0.1")))
      [Some (200%N, lit "Hi!")]
    = (w1, Normal reply)
    /\ Http.ok reply = true
    /\ Http.json reply w1 = ([], Normal data)
    /\ OllamaGenerateResponse.response data = lit "Hi!".
Proof.
  apply (generate_returns_only_ok_body scriptedFetch
           (Ollama.mk (lit "http://localhost:11434") (lit "llama3.1:8b") (lit "0.1"))
           (lit "Hello") (lit "Hi!") [Some (200%N, lit "Hi!")] []).
  reflexivity.
Defined.

Section ShellFacts.

Context {W : Type}.
Variable toLowerCase : jsstring -> jsstring.
Variable agent : ReactAgent.t W.

Import AgentChat.

Lemma questionsAsked_app (a b : list Output) :
  questionsAsked (a ++ b) = questionsAsked a + questionsAsked b.
Proof. unfold questionsAsked. now rewrite filter_app, length_app. Qed.

Lemma linesLogged_app (a b : list Output) :
  linesLogged (a ++ b) = linesLogged a + linesLogged b.
Proof. unfold linesLogged. now rewrite filter_app, length_app. Qed.

(** One turn of the shell on a line that is not an exit word. *)
Lemma loop_turn (line : jsstring) (rest : list jsstring) (m : Machine W)
    (out : list Output) :
  isExit toLowerCase line = false ->
  loop toLowerCase agent (line :: rest) m out
  = loop toLowerCase agent rest (fst (ReactAgent.invoke agent line m))
      (out ++ [Question YOU; Log (turnReply (snd (ReactAgent.invoke agent line m)))]).
Proof.
  intros Hexit. cbn [loop]. rewrite Hexit.
  destruct (ReactAgent.invoke agent line m) as [m' [output|error]]; reflexivity.
Qed.

Lemma invoke_calls_from (line : jsstring) (m : Machine W) :
  generateCalls (trace (fst (ReactAgent.invoke agent line m)))
  <= generateCalls (trace m) + ReactAgent.maxIterations agent.
Proof.
  unfold ReactAgent.invoke, bind.
  destruct (loop_invariant agent line (ReactAgent.maxIterations agent) (lit "") m)
    as [m' [r [E [Hg _]]]].
  rewrite E. destruct r as [fa|e]; [destruct (truthy fa) |]; exact Hg.
Qed.

Lemma loop_without_exit (inputs : list jsstring) :
  forall m out,
  (forall x, In x inputs -> isExit toLowerCase x = false) ->
  closed (loop toLowerCase agent inputs m out) = false
  /\ questionsAsked (stdout (loop toLowerCase agent inputs m out))
     = questionsAsked out + S (List.length inputs)
  /\ linesLogged (stdout (loop toLowerCase agent inputs m out))
     = linesLogged out + List.length inputs.
Proof.
  induction inputs as [|x rest IH]; intros m out Hno.
  - cbn [loop closed stdout]. rewrite questionsAsked_app, linesLogged_app.
    cbn. repeat split; lia.
  - rewrite (loop_turn x rest m out (Hno x (or_introl eq_refl))).
    destruct (IH (fst (ReactAgent.invoke agent x m))
                (out ++ [Question YOU;
                         Log (turnReply (snd (ReactAgent.invoke agent x m)))])
                (fun y Hy => Hno y (or_intror Hy))) as [H1 [H2 H3]].
    rewrite H1, H2, H3, questionsAsked_app, linesLogged_app.
    cbn. repeat split; lia.
Qed.

Lemma loop_until_exit (before after : list jsstring) (x : jsstring) :
  forall m out,
  (forall b, In b before -> isExit toLowerCase b = false) ->
  isExit toLowerCase x = true ->
  loop toLowerCase agent (before ++ x :: after) m out
  = loop toLowerCase agent (before ++ [x]) m out
  /\ closed (loop toLowerCase agent (before ++ [x]) m out) = true
  /\ questionsAsked (stdout (loop toLowerCase agent (before ++ [x]) m out))
     = questionsAsked out + S (List.length before)
  /\ exists shown,
       stdout (loop toLowerCase agent (before ++ [x]) m out)
       = shown ++ [Log GOODBYE].
Proof.
  induction before as [|b before IH]; intros m out Hno Hx.
  - cbn [app loop]. rewrite Hx. cbn [closed stdout].
    rewrite questionsAsked_app.
    split; [reflexivity |]. split; [reflexivity |]. split; [cbn; lia |].
    exists (out ++ [Question YOU]). now rewrite <- app_assoc.
  - cbn [app].
    rewrite !(loop_turn b _ m out (Hno b (or_introl eq_refl))).
    destruct (IH (fst (ReactAgent.invoke agent b m))
                (out ++ [Question YOU;
                         Log (turnReply (snd (ReactAgent.invoke agent b m)))])
                (fun y Hy => Hno y (or_intror Hy)) Hx) as [H1 [H2 [H3 H4]]].
    rewrite H1. split; [reflexivity |]. split; [exact H2 |]. split; [| exact H4].
    rewrite H3, questionsAsked_app. cbn. lia.
Qed.

Lemma loop_calls_bounded (inputs : list jsstring) :
  forall m out,
  generateCalls (trace (machine (loop toLowerCase agent inputs m out)))
  <= generateCalls (trace m) + ReactAgent.maxIterations agent * List.length inputs.
Proof.
  induction inputs as [|x rest IH]; intros m out.
  - cbn [loop machine]. lia.
  - cbn [loop]. destruct (isExit toLowerCase x); [cbn [machine]; lia |].
    pose proof (invoke_calls_from x m) as Hx.
    destruct (ReactAgent.invoke agent x m) as [m' [output|error]];
      cbn [fst] in Hx;
      match goal with
      | |- context [loop _ _ rest m' ?o] => specialize (IH m' o)
      end;
      cbn [List.length]; nia.
Qed.

End ShellFacts.

Section ShellClosing.

Context {W : Type}.
Variable toLowerCase : jsstring -> jsstring.
Variable agent : ReactAgent.t W.

Import AgentChat.

Lemma loop_closed (inputs : list jsstring) :
  forall m out,
  closed (loop toLowerCase agent inputs m out)
  = existsb (isExit toLowerCase) inputs.
Proof.
  induction inputs as [|x rest IH]; intros m out; [reflexivity |].
  cbn [existsb]. destruct (isExit toLowerCase x) eqn:E.
  - cbn [loop]. now rewrite E.
  - rewrite (loop_turn toLowerCase agent x rest m out E). apply IH.
Qed.

End ShellClosing.

(** X15: when the completion service answers the first request of a turn
    with a status that is not OK, the shell logs
    [Error: Error: HTTP error! status: <status>] after its error mark and
    goes on to ask for the next line: the session is not ended by the
    failed turn, and the request is not sent again. *)
Theorem http_error_is_reported_and_session_continues {W Num : Type}
    (fetch : Http.Request Num -> Eff W (Http.Response W))
    (config : Ollama.t Num) (registry : list (Tool W)) (n : nat) (v : bool)
    (toLowerCase : jsstring -> jsstring)
    (line : jsstring) (rest : list jsstring)
    (m : Machine W) (out : list Output) (w1 : W) (reply : Http.Response W) :
  let agent := ReactAgent.mk (Ollama.client fetch config) registry (S n) v in
  let prompt := ReactAgent.createPrompt agent line [] in
  AgentChat.isExit toLowerCase line = false ->
  fetch (Http.mkRequest (Ollama.baseUrl config ++ lit "/api/generate") (lit "POST")
           (lit "application/json")
           (OllamaGenerateRequest.mk (Ollama.model config) prompt false
              (Ollama.temperature config))) (world m)
  = (w1, Normal reply) ->
  Http.ok reply = false ->
  AgentChat.loop toLowerCase agent (line :: rest) m out
  = AgentChat.loop toLowerCase agent rest
      (mkMachine w1 (trace m ++ [EvGenerate prompt]))
      (out ++ [Question AgentChat.YOU;
               Log (AgentChat.ERROR ++ lit "Error: HTTP error! status: "
                    ++ Arith.decimal (Http.status reply))]).
Proof.
  intros agent prompt Hexit Hfetch Hok.
  rewrite (loop_turn toLowerCase agent line rest m out Hexit).
  assert (E : ReactAgent.invoke agent line m
              = (mkMachine w1 (trace m ++ [EvGenerate prompt]),
                 Throw (ErrorObject (lit "Error")
                          (lit "HTTP error! status: "
                           ++ Arith.decimal (Http.status reply))))).
  { unfold ReactAgent.invoke, bind. cbn [ReactAgent.maxIterations agent ReactAgent.loop].
    unfold bind, ReactAgent.pass, bind, await.
    change (lit "") with (@nil char). fold agent. fold prompt.
    cbn [ReactAgent.llm agent generate Ollama.client].
    unfold Ollama.generate, tryCatchE, bindE, throwE.
    rewrite Hfetch, Hok. reflexivity. }
  rewrite E. reflexivity.
Qed.

(** X15 (witness): a service that answers 503, then 200. *)
Lemma http_error_is_reported_and_session_continues_witness :
  AgentChat.loop asciiLower networkAgent [lit "hello"; lit "again"]
    (mkMachine [Some (503%N, lit ""); Some (200%N, lit "Final Answer: hi")] []) []
  = AgentChat.loop asciiLower networkAgent [lit "again"]
      (mkMachine [Some (200%N, lit "Final Answer: hi")]
         ([] ++ [EvGenerate (ReactAgent.createPrompt networkAgent (lit "hello") [])]))
      ([] ++ [Question AgentChat.YOU;
              Log (AgentChat.ERROR ++ lit "Error: HTTP error! status: "
                   ++ Arith.decimal 503)]).
Proof.
  apply (http_error_is_reported_and_session_continues scriptedFetch
           (Ollama.mk (lit "http://localhost:11434") (lit "llama3.1:8b") (lit "0.1"))
           (tools demoClock referenceEngine) 2 true asciiLower
           (lit "hello") [lit "again"]
           (mkMachine [Some (503%N, lit ""); Some (200%N, lit "Final Answer: hi")] [])
           [] [Some (200%N, lit "Final Answer: hi")]
           (Http.mkResponse false 503%N
              (retE (OllamaGenerateResponse.mk (lit "") true)))).
  - vm_compute. reflexivity.
  - reflexivity.
  - reflexivity.
Defined.





(** X18: over a whole session the completion client is called at most
    [maxIterations] times per line typed. *)
Theorem session_calls_bounded {W : Type} (toLowerCase : jsstring -> jsstring)
    (agent : ReactAgent.t W) (inputs : list jsstring)
    (m : Machine W) (out : list Output) :
  generateCalls
    (trace (AgentChat.machine (AgentChat.start toLowerCase agent inputs m out)))
  <= generateCalls (trace m)
     + ReactAgent.maxIterations agent * List.length inputs.
Proof. unfold AgentChat.start. apply loop_calls_bounded. Qed.

Lemma loop_asks_first {W : Type} (toLowerCase : jsstring -> jsstring)
    (agent : ReactAgent.t W) (inputs : list jsstring) :
  forall m out,
  exists rest,
    AgentChat.stdout (AgentChat.loop toLowerCase agent inputs m out)
    = out ++ Question AgentChat.YOU :: rest.
Proof.
  induction inputs as [|x inputs IH]; intros m out.
  - now exists [].
  - cbn [AgentChat.loop]. destruct (AgentChat.isExit toLowerCase x).
    + now exists [Log AgentChat.GOODBYE].
    + destruct (ReactAgent.invoke agent x m) as [m' [output|error]];
        match goal with
        | |- context [AgentChat.loop _ _ inputs m' (out ++ [_; ?l])] =>
            destruct (IH m' (out ++ [Question AgentChat.YOU; l])) as [rest E];
            exists (l :: Question AgentChat.YOU :: rest);
            rewrite E, <- app_assoc; reflexivity
        end.
Qed.

(** X19: [main] tests the connection before anything else, with one
    call of [generate] on the prompt [Hello].  When that call throws,
    [main] logs the two opening lines, the advice to start the service
    and the error, and returns: no question is put to the user, whatever
    lines are waiting.  When it returns, the session is the one of the
    shell started on an agent with the client of the test, the three
    built-in tools [get_time], [calculator] and [weather], and three
    iterations: the terminal shows the three lines of the test and the
    two lines of the banner before the first question, the shell closes
    exactly when some line is an exit word, and the agent calls the
    completion service at most three times per line. *)
Theorem main_tests_connection_first {W Num : Type}
    (fetch : Http.Request Num -> Eff W (Http.Response W)) (pointOne : Num)
    (localeNow : W -> jsstring) (engine : jsstring -> Completion jsstring)
    (toLowerCase : jsstring -> jsstring) (inputs : list jsstring) (w : W) :
  let llm := Ollama.mk (lit "http://localhost:11434") (lit "llama3.1:8b") pointOne in
  let agent := ReactAgent.mk (Ollama.client fetch llm) (tools localeNow engine) 3 true in
  (forall w' e,
      Ollama.generate fetch llm (lit "Hello") w = (w', Throw e) ->
      main fetch pointOne localeNow engine toLowerCase inputs w
      = Unreachable w'
          [Log STARTING; Log TESTING; Log NOT_CONNECTED;
           Log (lit "Error: " ++ thrownToString e)]
      /\ questionsAsked
           [Log STARTING; Log TESTING; Log NOT_CONNECTED;
            Log (lit "Error: " ++ thrownToString e)] = 0)
  /\ (forall w' text,
        Ollama.generate fetch llm (lit "Hello") w = (w', Normal text) ->
        exists session rest,
          main fetch pointOne localeNow engine toLowerCase inputs w = Chatted session
          /\ session
             = AgentChat.start toLowerCase agent inputs (mkMachine w' [])
                 [Log STARTING; Log TESTING; Log CONNECTED]
          /\ List.map (@name W) (ReactAgent.tools agent)
             = [lit "get_time"; lit "calculator"; lit "weather"]
          /\ AgentChat.stdout session
             = [Log STARTING; Log TESTING; Log CONNECTED;
                Log AgentChat.READY; Log AgentChat.TRY; Question AgentChat.YOU] ++ rest
          /\ AgentChat.closed session = existsb (AgentChat.isExit toLowerCase) inputs
          /\ generateCalls (trace (AgentChat.machine session)) <= 3 * List.length inputs).
Proof.
  intros llm agent. split.
  - intros w' e Hgen. unfold main. fold llm. rewrite Hgen.
    split; reflexivity.
  - intros w' text Hgen.
    destruct (loop_asks_first toLowerCase agent inputs (mkMachine w' [])
                ([Log STARTING; Log TESTING; Log CONNECTED]
                 ++ [Log AgentChat.READY; Log AgentChat.TRY])) as [rest Hout].
    exists (AgentChat.start toLowerCase agent inputs (mkMachine w' [])
              [Log STARTING; Log TESTING; Log CONNECTED]), rest.
    split; [unfold main; fold llm; rewrite Hgen; reflexivity |].
    split; [reflexivity |]. split; [reflexivity |].
    unfold AgentChat.start. split; [exact Hout |].
    split; [apply loop_closed |].
    apply (loop_calls_bounded toLowerCase agent inputs (mkMachine w' [])).
Qed.

(** X19 (witness): the service is down; then the service answers and the
    user asks for a product and leaves. *)
Lemma main_tests_connection_first_witness :
  main scriptedFetch (lit "0.1") demoClock referenceEngine asciiLower
    [lit "Calculate 15 * 23"; lit "Quit"] [None]
  = Unreachable []
      [Log STARTING; Log TESTING; Log NOT_CONNECTED;
       Log (lit "Error: TypeError: fetch failed")]
  /\ exists session,
       main scriptedFetch (lit "0.1") demoClock referenceEngine asciiLower
         [lit "Calculate 15 * 23"; lit "Quit"]
         [Some (200%N, lit "Hi there");
          Some (200%N, lines2 (lit "Action: calculator") (lit "Action Input: 15 * 23"));
          Some (200%N, lit "Final Answer: 345")]
       = Chatted session
       /\ AgentChat.closed session = true
       /\ toolCalls (trace (AgentChat.machine session))
          = [EvTool (lit "calculator") (lit "15 * 23")].
Proof.
  split.
  - pose proof (main_tests_connection_first scriptedFetch (lit "0.1") demoClock
                  referenceEngine asciiLower
                  [lit "Calculate 15 * 23"; lit "Quit"] [None]) as H.
    cbv zeta in H. destruct H as [H _].
    destruct (H [] (ErrorObject (lit "TypeError") (lit "fetch failed")))
      as [Hmain _]; [vm_compute; reflexivity | exact Hmain].
  - pose proof (main_tests_connection_first scriptedFetch (lit "0.1") demoClock
                  referenceEngine asciiLower
                  [lit "Calculate 15 * 23"; lit "Quit"]
                  [Some (200%N, lit "Hi there");
                   Some (200%N, lines2 (lit "Action: calculator")
                                  (lit "Action Input: 15 * 23"));
                   Some (200%N, lit "Final Answer: 345")]) as H.
    cbv zeta in H. destruct H as [_ H].
    destruct (H [Some (200%N, lines2 (lit "Action: calculator")
                                (lit "Action Input: 15 * 23"));
                 Some (200%N, lit "Final Answer: 345")]
                (lit "Hi there"))
      as [session [rest [Hmain [Hsession _]]]]; [vm_compute; reflexivity |].
    exists session. split; [exact Hmain |]. rewrite Hsession.
    vm_compute. split; reflexivity.
Defined.
